(** * kick-recorder: the motion-fingerprint pipeline

    A shallow embedding of [js/normalization.js] (the per-frame engine:
    One Euro filter bank, centre of gravity, rigid pose normalisation,
    feature extraction) and of the batch logic of [js/recorder.js]
    (stance mirroring, motion metrics, time resampling).

    JavaScript numbers are modelled by the real numbers: every arithmetic
    operation of the source is the exact operation on [R].  The model
    therefore agrees with the code wherever the code divides by a non-zero
    number and produces neither NaN nor an infinity; the places where the
    source can leave that domain are marked at the definitions.

    Which limb and which frame [calculateMetrics] reports, and the
    second decimal of its speeds, are decided by the rounding of the
    doubles of the program.  That part of [js/recorder.js] is therefore
    embedded a second time, over the binary64 numbers of the kernel
    (modules [Double] and [Recorder64]), and the statements on these
    results are made there.

    An uncaught [TypeError] (a property read on [undefined]) is modelled by
    [None] in the option monad. *)

From Stdlib Require Import Floats QArith Qround Qabs.
From Stdlib Require Import Reals Lra Lia ZArith Zfloor String.
From stdpp Require Import base option list.

Local Open Scope R_scope.

(** ** JavaScript primitives used by the sources *)

Module JS.

(** [Math.atan2(y, x)] on real arguments. *)
Definition atan2 (y x : R) : R :=
  if Rlt_dec 0 x then atan (y / x)
  else if Rlt_dec x 0 then
    (if Rle_dec 0 y then atan (y / x) + PI else atan (y / x) - PI)
  else if Rlt_dec 0 y then PI / 2
  else if Rlt_dec y 0 then - (PI / 2)
  else 0.

(** Truthiness of a possibly missing number: [undefined] and [0] are falsy. *)
Definition truthy (o : option R) : bool :=
  match o with
  | Some r => if Req_dec_T r 0 then false else true
  | None => false
  end.

(** [a || b] on possibly missing numbers. *)
Definition or (a b : option R) : option R := if truthy a then a else b.

(** [a || d] where the right operand is a number. *)
Definition orElse (a : R) (d : R) : R := if Req_dec_T a 0 then d else a.

(** [parseFloat(v.toFixed(2))]: [toFixed] takes the integer [n] for which
    [n / 100 - v] is closest to zero, the larger one on a tie; a negative
    [v] is rounded through its absolute value; from [1e21] on [toFixed]
    prints the number itself. *)
Definition toFixed2_abs (v : R) : R :=
  if Rle_dec 1e21 v then v else IZR (Zfloor (v * 100 + 1 / 2)) / 100.

Definition toFixed2 (v : R) : R :=
  if Rlt_dec v 0 then - toFixed2_abs (- v) else toFixed2_abs v.

(** [a[i]] for a computed index: [undefined] outside the array. *)
Definition index {A} (a : list A) (i : Z) : option A :=
  if (i <? 0)%Z then None else a !! Z.to_nat i.

End JS.

(** ** Landmarks

    One record for the point objects of both files: [x], [y], [z] and the
    optional [visibility] and [v] properties ([None] when the property is
    absent or [undefined]). *)

Module Pt.
Record t : Type := mk {
  x : R;
  y : R;
  z : R;
  visibility : option R;
  v : option R
}.

(** The object literal [{x, y, z}]. *)
Definition xyz (a b c : R) : t := mk a b c None None.
End Pt.

(** [getMidPoint] and [getDistance] (the helper of [recorder.js] is the
    same function as the method of the engine). *)
Definition getMidPoint (p1 p2 : Pt.t) : Pt.t :=
  Pt.xyz ((Pt.x p1 + Pt.x p2) / 2)
         ((Pt.y p1 + Pt.y p2) / 2)
         ((Pt.z p1 + Pt.z p2) / 2).

Definition getDistance (p1 p2 : Pt.t) : R :=
  sqrt ((Pt.x p1 - Pt.x p2) ^ 2 +
        (Pt.y p1 - Pt.y p2) ^ 2 +
        (Pt.z p1 - Pt.z p2) ^ 2).

(** ** LowPassFilter *)

Module LowPassFilter.
Record t : Type := mk {
  y : R;
  s : option R;
  alpha : R;
  w : option R
}.

(** [constructor(alpha, initValue = 0)]: [s] is overwritten by
    [undefined] and [w] is never assigned. *)
Definition new (alpha0 : R) : t := mk 0 None alpha0 None.

Definition filter (f : t) (value : R) : R * t :=
  let result :=
    match s f with
    | None => value
    | Some s0 => alpha f * value + (1 - alpha f) * s0
    end in
  (result, mk (y f) (Some result) (alpha f) (Some value)).

Definition filterWithAlpha (f : t) (value alpha0 : R) : R * t :=
  filter (mk (y f) (s f) alpha0 (w f)) value.

Definition hasLastRawValue (f : t) : bool :=
  match w f with Some _ => true | None => false end.

Definition lastRawValue (f : t) : option R := w f.
End LowPassFilter.

(** ** OneEuroFilter *)

Module OneEuroFilter.
Record t : Type := mk {
  freq : R;
  minCutoff : R;
  beta : R;
  dCutoff : R;
  x : LowPassFilter.t;
  dx : LowPassFilter.t;
  lastTime : option R
}.

(** [alpha(cutoff)] reads [this.freq]; the real-number model is faithful
    for a non-zero frequency and a non-zero cutoff. *)
Definition alpha (freq0 cutoff : R) : R :=
  let te := 1 / freq0 in
  let tau := 1 / (2 * PI * cutoff) in
  1 / (1 + tau / te).

Definition new (freq0 minCutoff0 beta0 dCutoff0 : R) : t :=
  mk freq0 minCutoff0 beta0 dCutoff0
     (LowPassFilter.new (alpha freq0 minCutoff0))
     (LowPassFilter.new (alpha freq0 dCutoff0))
     None.

(** The sampling frequency after the first statement of [filter].  When
    [timestamp] equals [lastTime] the source divides by zero (the result
    is [Infinity]); the real-number model is faithful for every other
    pair of time stamps. *)
Definition updateFreq (f : t) (timestamp : option R) : R :=
  match lastTime f, timestamp with
  | Some last, Some ts => 1 / (ts - last)
  | _, _ => freq f
  end.

Definition filter (f : t) (value : R) (timestamp : option R) : R * t :=
  let freq1 := updateFreq f timestamp in
  let dvalue :=
    match LowPassFilter.lastRawValue (x f) with
    | Some last => (value - last) * freq1
    | None => 0
    end in
  let '(edvalue, dx1) :=
    LowPassFilter.filterWithAlpha (dx f) dvalue (alpha freq1 (dCutoff f)) in
  let cutoff := minCutoff f + beta f * Rabs edvalue in
  let '(result, x1) :=
    LowPassFilter.filterWithAlpha (x f) value (alpha freq1 cutoff) in
  (result, mk freq1 (minCutoff f) (beta f) (dCutoff f) x1 dx1 timestamp).

End OneEuroFilter.

(** ** NormalizationEngine *)

Module NormalizationEngine.

(** One entry of [this.filters]: a filter per axis. *)
Record axes : Type := mkAxes {
  x : OneEuroFilter.t;
  y : OneEuroFilter.t;
  z : OneEuroFilter.t
}.

Record t : Type := mk {
  minCutoff : R;
  beta : R;
  dCutoff : R;
  filters : list axes
}.

(** [constructor()]: 33 entries, each with three fresh 30 Hz filters. *)
Definition new : t :=
  let f := OneEuroFilter.new 30 1 0 1 in
  mk 1 0 1 (replicate 33 (mkAxes f f f)).

(** Methods that touch [this.filters] run in a state monad over the
    engine; [None] is an uncaught [TypeError]. *)
Definition M (A : Type) : Type := t -> option (A * t).

(** [applyFilter]: [landmarks.map((pt, i) => ...)], from index [i] on. *)
Fixpoint applyFilterFrom (i : nat) (landmarks : list Pt.t)
    (timestamp : option R) (fs : list axes) : option (list Pt.t * list axes) :=
  match landmarks with
  | [] => Some ([], fs)
  | pt :: rest =>
    if (33 <=? i)%nat then
      '(out, fs') ← applyFilterFrom (S i) rest timestamp fs;
      Some (pt :: out, fs')
    else
      a ← fs !! i;
      let '(vx, fx) := OneEuroFilter.filter (x a) (Pt.x pt) timestamp in
      let '(vy, fy) := OneEuroFilter.filter (y a) (Pt.y pt) timestamp in
      let '(vz, fz) := OneEuroFilter.filter (z a) (Pt.z pt) timestamp in
      let vis := JS.or (JS.or (Pt.visibility pt) (Pt.v pt)) (Some 0) in
      '(out, fs') ← applyFilterFrom (S i) rest timestamp
                      (<[i := mkAxes fx fy fz]> fs);
      Some (Pt.mk vx vy vz vis None :: out, fs')
  end.

Definition applyFilter (landmarks : list Pt.t) (timestamp : option R)
    : M (list Pt.t) := fun e =>
  '(out, fs) ← applyFilterFrom 0 landmarks timestamp (filters e);
  Some (out, mk (minCutoff e) (beta e) (dCutoff e) fs).

(** The mass table of [calculateCOG] (the trunk is handled apart). *)
Definition segments : list (list nat * R) :=
  [ ([0%nat], 0.07);
    ([11; 13]%nat, 0.028); ([12; 14]%nat, 0.028);
    ([13; 15]%nat, 0.016); ([14; 16]%nat, 0.016);
    ([15; 17; 19; 21]%nat, 0.006); ([16; 18; 20; 22]%nat, 0.006);
    ([23; 25]%nat, 0.10); ([24; 26]%nat, 0.10);
    ([25; 27]%nat, 0.0465); ([26; 28]%nat, 0.0465);
    ([27; 29; 31]%nat, 0.0145); ([28; 30; 32]%nat, 0.0145) ].

(** The inner [seg.indices.forEach]: the coordinate sums of a segment. *)
Definition segmentSum (pose : list Pt.t) (indices : list nat)
    : option (R * R * R) :=
  fold_left
    (fun acc idx =>
       '(segX, segY, segZ) ← acc;
       p ← pose !! idx;
       Some (segX + Pt.x p, segY + Pt.y p, segZ + Pt.z p))
    indices (Some (0, 0, 0)).

(** One round of the outer [segments.forEach] on
    [(sumX, sumY, sumZ, totalMass)]. *)
Definition addSegment (pose : list Pt.t)
    (acc : option (R * R * R * R)) (seg : list nat * R)
    : option (R * R * R * R) :=
  '(sumX, sumY, sumZ, totalMass) ← acc;
  '(segX, segY, segZ) ← segmentSum pose (fst seg);
  let n := INR (length (fst seg)) in
  Some (sumX + segX / n * snd seg,
        sumY + segY / n * snd seg,
        sumZ + segZ / n * snd seg,
        totalMass + snd seg).

Definition calculateCOG (pose : list Pt.t) : option Pt.t :=
  p11 ← pose !! 11%nat; p12 ← pose !! 12%nat;
  p23 ← pose !! 23%nat; p24 ← pose !! 24%nat;
  let shoulderMid := getMidPoint p11 p12 in
  let hipMid := getMidPoint p23 p24 in
  let trunkCenter := getMidPoint shoulderMid hipMid in
  let trunkWeight := 0.50 in
  '(sumX, sumY, sumZ, totalMass) ←
    fold_left (addSegment pose) segments
      (Some (0 + Pt.x trunkCenter * trunkWeight,
             0 + Pt.y trunkCenter * trunkWeight,
             0 + Pt.z trunkCenter * trunkWeight,
             0 + trunkWeight));
  Some (Pt.xyz (sumX / totalMass) (sumY / totalMass) (sumZ / totalMass)).

(** The local function [rotateY] of [normalizePose]. *)
Definition rotateY (p : Pt.t) (theta : R) : Pt.t :=
  Pt.mk (Pt.x p * cos theta - Pt.z p * sin theta)
        (Pt.y p)
        (Pt.x p * sin theta + Pt.z p * cos theta)
        (Pt.visibility p) None.

(** Step A of [normalizePose]: the hip centre goes to the origin. *)
Definition translate (hipCenter p : Pt.t) : Pt.t :=
  Pt.mk (Pt.x p - Pt.x hipCenter) (Pt.y p - Pt.y hipCenter)
        (Pt.z p - Pt.z hipCenter) (Pt.visibility p) None.

(** Step B: the yaw angle of the hip line of the translated pose. *)
Definition hipYaw (translatedPose : list Pt.t) : option R :=
  leftHip ← translatedPose !! 23%nat;
  rightHip ← translatedPose !! 24%nat;
  let dx := Pt.x leftHip - Pt.x rightHip in
  let dz := Pt.z leftHip - Pt.z rightHip in
  Some (JS.atan2 dz dx).

(** Steps A and B: [rotatedPose] together with the hip centre and the
    angle, which the centre of gravity goes through as well. *)
Definition rotatedPose (pose : list Pt.t) : option (list Pt.t * Pt.t * R) :=
  p23 ← pose !! 23%nat; p24 ← pose !! 24%nat;
  let hipCenter := getMidPoint p23 p24 in
  let translatedPose := translate hipCenter <$> pose in
  angleY ← hipYaw translatedPose;
  Some ((fun p => rotateY p (- angleY)) <$> translatedPose, hipCenter, angleY).

(** Step C: divide by the spine length. *)
Definition scale (spineLength : R) (p : Pt.t) : Pt.t :=
  Pt.mk (Pt.x p / spineLength) (Pt.y p / spineLength)
        (Pt.z p / spineLength) (Pt.visibility p) None.

Definition normalizePose (pose : list Pt.t) (cog : Pt.t)
    : option (list Pt.t * Pt.t) :=
  match rotatedPose pose with
  | None => None
  | Some (rotated, hipCenter, angleY) =>
    let normCog :=
      rotateY (Pt.xyz (Pt.x cog - Pt.x hipCenter) (Pt.y cog - Pt.y hipCenter)
                      (Pt.z cog - Pt.z hipCenter)) (- angleY) in
    r11 ← rotated !! 11%nat; r12 ← rotated !! 12%nat;
    let rShoulderMid := getMidPoint r11 r12 in
    let rHipMid := Pt.xyz 0 0 0 in
    let spineLength := JS.orElse (getDistance rShoulderMid rHipMid) 1 in
    Some (scale spineLength <$> rotated,
          Pt.xyz (Pt.x normCog / spineLength) (Pt.y normCog / spineLength)
                 (Pt.z normCog / spineLength))
  end.

Definition extractFeaturesV3 (pose : list Pt.t) (cog : Pt.t)
    : option (list R) :=
  p19 ← pose !! 19%nat; p20 ← pose !! 20%nat;
  p31 ← pose !! 31%nat; p32 ← pose !! 32%nat;
  p25 ← pose !! 25%nat; p26 ← pose !! 26%nat;
  p11 ← pose !! 11%nat; p12 ← pose !! 12%nat;
  let shoulderVecX := Pt.x p11 - Pt.x p12 in
  let shoulderVecZ := Pt.z p11 - Pt.z p12 in
  let shoulderAngle := JS.atan2 shoulderVecZ shoulderVecX * (180 / PI) in
  p0 ← pose !! 0%nat;
  Some [ Pt.x p19; Pt.y p19; Pt.z p19;
         Pt.x p20; Pt.y p20; Pt.z p20;
         Pt.x p31; Pt.y p31; Pt.z p31;
         Pt.x p32; Pt.y p32; Pt.z p32;
         Pt.x p25; Pt.y p25; Pt.z p25;
         Pt.x p26; Pt.y p26; Pt.z p26;
         0; shoulderAngle;
         Pt.x cog; Pt.z cog;
         getDistance p0 p19; getDistance p0 p20 ].

(** [process]: the inner [None] is the [null] result; a missing
    [landmarks] argument ([null] or [undefined]) is [None]. *)
Definition process (landmarks : option (list Pt.t)) (timestamp : option R)
    : M (option (list R)) := fun e =>
  match landmarks with
  | None => Some (None, e)
  | Some lms =>
    if (length lms <? 33)%nat then Some (None, e)
    else
      '(smoothedPose, e1) ← applyFilter lms timestamp e;
      cog ← calculateCOG smoothedPose;
      '(normPose, normCog) ← normalizePose smoothedPose cog;
      features ← extractFeaturesV3 normPose normCog;
      Some (Some features, e1)
  end.

End NormalizationEngine.

(** ** recorder.js: mirroring, metrics, resampling *)

Module Recorder.

(** An entry of [processedHistory]: [{time, pose}], [time] in ms. *)
Record Frame : Type := mkFrame {
  time : R;
  pose : list Pt.t
}.

(** *** mirrorPose *)

Definition swapPairs : list (nat * nat) :=
  [ (11, 12); (13, 14); (15, 16);
    (17, 18); (19, 20); (21, 22);
    (23, 24); (25, 26); (27, 28);
    (29, 30); (31, 32) ]%nat.

(** [pt.x = pt.x * -1]: the other properties stay. *)
Definition flipX (pt : Pt.t) : Pt.t :=
  Pt.mk (Pt.x pt * -1) (Pt.y pt) (Pt.z pt) (Pt.visibility pt) (Pt.v pt).

(** One round of [swapPairs.forEach].  With an index out of range the
    source stores [undefined] into the array (and extends it): the array
    is then no list of landmarks any more, and the model stops. *)
Definition swap (acc : option (list Pt.t)) (pair : nat * nat)
    : option (list Pt.t) :=
  a ← acc;
  temp ← a !! fst pair;
  other ← a !! snd pair;
  Some (<[snd pair := temp]> (<[fst pair := other]> a)).

(** [mirrorPose] updates its argument in place.  Its only caller hands
    it a fresh deep copy of the recorded pose (a JSON round trip), so no
    landmark object sits at two positions and the update is a function
    of the pose as a value. *)
Definition mirrorPose (pose0 : list Pt.t) : option (list Pt.t) :=
  fold_left swap swapPairs (Some (flipX <$> pose0)).

(** *** calculateMetrics *)

Definition parts : list (nat * string) :=
  [ (19%nat, "left_hand"%string); (20%nat, "right_hand"%string);
    (31%nat, "left_foot"%string); (32%nat, "right_foot"%string) ].

(** [dist] in the inner callback: the distance of landmark [id] from the
    hip centre of the same frame. *)
Definition extension (frame : Frame) (id : nat) : option R :=
  p23 ← pose frame !! 23%nat; p24 ← pose frame !! 24%nat;
  let hipCenter := getMidPoint p23 p24 in
  limb ← pose frame !! id;
  Some (sqrt ((Pt.x limb - Pt.x hipCenter) ^ 2 +
              (Pt.y limb - Pt.y hipCenter) ^ 2 +
              (Pt.z limb - Pt.z hipCenter) ^ 2)).

(** [history.forEach((frame, i) => ...)] on
    [(localMaxDist, localApexIndex)], from index [i] on. *)
Fixpoint scanFrom (i : nat) (frames : list Frame) (id : nat)
    (st : R * nat) : option (R * nat) :=
  match frames with
  | [] => Some st
  | frame :: rest =>
    dist ← extension frame id;
    scanFrom (S i) rest id (if Rgt_dec dist (fst st) then (dist, i) else st)
  end.

(** The four variables the outer loop updates. *)
Record Active : Type := mkActive {
  maxExtension : R;
  activePartId : nat;
  activePartName : string;
  apexFrameIndex : nat
}.

(** The [if] that ends a round of [parts.forEach], on the pair
    [(localMaxDist, localApexIndex)] of the round. *)
Definition updateActive (st : Active) (part : nat * string)
    (local : R * nat) : Active :=
  if Rgt_dec (fst local) (maxExtension st)
  then mkActive (fst local) (fst part) (snd part) (snd local)
  else st.

(** One round of [parts.forEach]. *)
Definition considerPart (history : list Frame) (acc : option Active)
    (part : nat * string) : option Active :=
  st ← acc;
  local ← scanFrom 0 history (fst part) (0, 0%nat);
  Some (updateActive st part local).

Definition detectActivePart (history : list Frame) : option Active :=
  fold_left (considerPart history) parts
    (Some (mkActive 0 20 "right_hand" 0)).

(** One round of the [for] loop of [calculateMaxSpeedInRange]. *)
Definition speedStep (history : list Frame) (partId : nat) (scale : R)
    (acc : option R) (i : nat) : option R :=
  maxSpeed ← acc;
  cur ← history !! i;
  prev ← history !! (i - 1)%nat;
  let dt := (time cur - time prev) / 1000 in
  if Rle_dec dt 0 then Some maxSpeed
  else
    p1 ← pose prev !! partId;
    p2 ← pose cur !! partId;
    let dist := sqrt ((Pt.x p2 - Pt.x p1) ^ 2 +
                      (Pt.y p2 - Pt.y p1) ^ 2 +
                      (Pt.z p2 - Pt.z p1) ^ 2) in
    let speed := dist * scale / dt in
    Some (if Rlt_dec speed 25
          then (if Rgt_dec speed maxSpeed then speed else maxSpeed)
          else maxSpeed).

Definition calculateMaxSpeedInRange (history : list Frame)
    (startIndex endIndex partId : nat) (scale : R) : option R :=
  if (endIndex <=? startIndex)%nat then Some 0
  else
    maxSpeed ← fold_left (speedStep history partId scale)
                  (seq (S startIndex) (endIndex - startIndex)) (Some 0);
    Some (JS.toFixed2 maxSpeed).

Record Metrics : Type := mkMetrics {
  duration_sec : R;
  active_part : string;
  max_speed_outbound : R;
  max_speed_return : R;
  apex_frame : nat
}.

(** The result of [calculateMetrics]: the empty object [{}] or the
    metrics object. *)
Inductive MetricsResult : Type :=
  | EmptyObject
  | MetricsObject (m : Metrics).

Definition calculateMetrics (history : list Frame) (heightCm : R)
    : option MetricsResult :=
  if (length history <? 5)%nat then Some EmptyObject
  else
    a ← detectActivePart history;
    let heightScale := heightCm / 175 in
    speedOut ← calculateMaxSpeedInRange history 0 (apexFrameIndex a)
                  (activePartId a) heightScale;
    speedRet ← calculateMaxSpeedInRange history (apexFrameIndex a)
                  (length history - 1) (activePartId a) heightScale;
    first ← history !! 0%nat;
    last ← history !! (length history - 1)%nat;
    let durationSec := (time last - time first) / 1000 in
    Some (MetricsObject
            (mkMetrics (JS.toFixed2 durationSec) (activePartName a)
                       speedOut speedRet (apexFrameIndex a))).

(** *** resampleTimeSeries *)

(** [frameLow.map((val, idx) => val + (frameHigh[idx] - val) * ratio)],
    from index [idx] on.  Where [frameHigh] is shorter than [frameLow]
    the source computes with [undefined] and stores NaN; the model then
    stops with [None]. *)
Fixpoint lerpFrom (idx : nat) (frameLow frameHigh : list R) (ratio : R)
    : option (list R) :=
  match frameLow with
  | [] => Some []
  | val :: rest =>
    hi ← frameHigh !! idx;
    out ← lerpFrom (S idx) rest frameHigh ratio;
    Some ((val + (hi - val) * ratio) :: out)
  end.

(** The body of the [for] loop: the frame pushed at position [i]. *)
Definition resampleAt (data : list (list R)) (step : R) (i : nat)
    : option (list R) :=
  let originalIndex := INR i * step in
  let indexLow := Zfloor originalIndex in
  let indexHigh := Z.min (Zceil originalIndex) (Z.of_nat (length data) - 1) in
  let ratio := originalIndex - IZR indexLow in
  frameLow ← JS.index data indexLow;
  frameHigh ← JS.index data indexHigh;
  lerpFrom 0 frameLow frameHigh ratio.

(** With [targetLen = 1] and two or more frames, [step] is [Infinity],
    [0 * step] is NaN, [data[NaN]] is [undefined] and [frameLow.map]
    throws. *)
Definition resampleTimeSeries (data : list (list R)) (targetLen : nat)
    : option (list (list R)) :=
  match data with
  | [] => Some []
  | [d] => Some (replicate targetLen d)
  | _ =>
    if (targetLen =? 1)%nat then None
    else
      let step := (INR (length data) - 1) / (INR targetLen - 1) in
      mapM (resampleAt data step) (seq 0 targetLen)
  end.

(** *** generateV3Data *)

(** [history.forEach((frame, i) => ...)] of [generateV3Data], from index
    [i] on: [processed] collects the feature vectors of the frames that
    [process] accepts.  The engine is the one global
    [normalizationEngine] of the page. *)
Fixpoint generateFrom (i : nat) (history : list Frame)
    (processed : list (list R)) : NormalizationEngine.M (list (list R)) :=
  fun e =>
    match history with
    | [] => Some (processed, e)
    | frame :: rest =>
      let timeSec := INR i * (1 / 30) in
      match NormalizationEngine.process (Some (pose frame)) (Some timeSec) e with
      | None => None
      | Some (Some features, e1) =>
        generateFrom (S i) rest (processed ++ [features]) e1
      | Some (None, e1) => generateFrom (S i) rest processed e1
      end
    end.

Definition generateV3Data (history : list Frame)
    : NormalizationEngine.M (list (list R)) := fun e =>
  match generateFrom 0 history [] e with
  | None => None
  | Some (processed, e1) =>
    out ← resampleTimeSeries processed 100;
    Some (out, e1)
  end.

End Recorder.

(** ** The specification's words

    Definitions that follow the specification, to be compared with the
    functions above. *)

Module Spec.

(** Section 4.4: the landmarks whose coordinates fill positions 0-17. *)
Definition trajectoryLandmarks : list nat := [19; 20; 31; 32; 25; 26]%nat.

Definition coordinate (axis : nat) (p : Pt.t) : R :=
  match axis with
  | O => Pt.x p
  | S O => Pt.y p
  | _ => Pt.z p
  end.

(** Section 4.4: the meaning of position [i] of a feature vector. *)
Definition featureLayout (pose : list Pt.t) (cog : Pt.t) (i : nat)
    : option R :=
  if (i <? 18)%nat then
    id ← trajectoryLandmarks !! (i / 3)%nat;
    p ← pose !! id;
    Some (coordinate (i mod 3) p)
  else if (i =? 18)%nat then Some 0
  else if (i =? 19)%nat then
    leftShoulder ← pose !! 11%nat;
    rightShoulder ← pose !! 12%nat;
    Some (JS.atan2 (Pt.z leftShoulder - Pt.z rightShoulder)
                   (Pt.x leftShoulder - Pt.x rightShoulder) * (180 / PI))
  else if (i =? 20)%nat then Some (Pt.x cog)
  else if (i =? 21)%nat then Some (Pt.z cog)
  else if (i =? 22)%nat then
    head ← pose !! 0%nat; leftHand ← pose !! 19%nat;
    Some (getDistance head leftHand)
  else if (i =? 23)%nat then
    head ← pose !! 0%nat; rightHand ← pose !! 20%nat;
    Some (getDistance head rightHand)
  else None.


(** Section 3: every frame of a window has its 33 landmarks. *)
Definition validWindow (history : list Recorder.Frame) : Prop :=
  forall frame, frame ∈ history -> (33 <= length (Recorder.pose frame))%nat.

(** Section 4.6, step 1: the distances of a candidate from the hip
    midpoint, frame by frame. *)
Definition extensions (history : list Recorder.Frame) (id : nat)
    : option (list R) :=
  mapM (fun frame => Recorder.extension frame id) history.

(** Section 4.6: rounding to two decimal places (the nearest hundredth,
    upwards on a tie). *)
Definition round2 (v : R) : R := IZR (Zfloor (v * 100 + 1 / 2)) / 100.

(** Section 4.6, step 3: the speed sample of the frame pair [(i-1, i)],
    [distance(p[i-1], p[i]) * heightScale / dt]; there is none when
    [dt <= 0] (the pair is skipped) or when the speed is 25 m/s or more
    (the sample is discarded). *)
Definition countedSample (history : list Recorder.Frame) (partId : nat)
    (heightCm : R) (i : nat) : option R :=
  prev ← history !! (i - 1)%nat;
  cur ← history !! i;
  p1 ← Recorder.pose prev !! partId;
  p2 ← Recorder.pose cur !! partId;
  let dt := (Recorder.time cur - Recorder.time prev) / 1000 in
  let heightScale := heightCm / 175 in
  let speed := getDistance p1 p2 * heightScale / dt in
  if Rle_dec dt 0 then None
  else if Rlt_dec speed 25 then Some speed
  else None.

(** The samples of the phase from frame [startIndex] to frame
    [endIndex]. *)
Definition phaseSamples (history : list Recorder.Frame) (partId : nat)
    (heightCm : R) (startIndex endIndex : nat) : list R :=
  omap (countedSample history partId heightCm)
       (seq (S startIndex) (endIndex - startIndex)).

(** The maximum of a list of speeds, 0 when there is none. *)
Definition maxOf (samples : list R) : R := fold_right Rmax 0 samples.

(** Section 4.7: the elements of the input are vectors of one shape. *)
Definition rectangular (data : list (list R)) : Prop :=
  forall a b, a ∈ data -> b ∈ data -> length a = length b.

(** Section 4.7: the [i]-th of [targetLength] equally spaced positions
    over the index range [0 .. len - 1]. *)
Definition position (len targetLength i : nat) : R :=
  INR i * ((INR len - 1) / (INR targetLength - 1)).

(** Component-wise linear interpolation from [low] towards [high]. *)
Definition lerp (low high : list R) (weight : R) : list R :=
  zip_with (fun a b => a + (b - a) * weight) low high.

(** Section 4.7: the element at position [i]: the interpolation between
    the two elements that bracket the position, the upper index clamped
    to the last one, the weight the distance to the lower index. *)
Definition interpolated (data : list (list R)) (targetLength i : nat)
    : option (list R) :=
  let pos := position (length data) targetLength i in
  let lower := Zfloor pos in
  let upper := Z.min (Zceil pos) (Z.of_nat (length data) - 1) in
  low ← data !! Z.to_nat lower;
  high ← data !! Z.to_nat upper;
  Some (lerp low high (pos - IZR lower)).

End Spec.

(** ** Sample inputs *)

Module Samples.

(** A pose with the shoulders one unit above the hips. *)
Definition upright : list Pt.t :=
  (fun i => if ((i =? 11) || (i =? 12))%nat
            then Pt.xyz 0 1 0 else Pt.xyz 0 0 0) <$> seq 0 33.

(** A pose with the right hand (landmark 20) at [(a, 0, 0)] and every
    other landmark at the origin. *)
Definition handAt (a : R) : list Pt.t :=
  (fun i => if (i =? 20)%nat then Pt.xyz a 0 0 else Pt.xyz 0 0 0)
    <$> seq 0 33.

(** A jab of the right hand: five frames 100 ms apart, the hand 0.3
    further out per frame up to frame 2, then back. *)
Definition jab : list Recorder.Frame :=
  [ Recorder.mkFrame 0 (handAt 0);
    Recorder.mkFrame 100 (handAt 0.3);
    Recorder.mkFrame 200 (handAt 0.6);
    Recorder.mkFrame 300 (handAt 0.3);
    Recorder.mkFrame 400 (handAt 0) ].

(** Five frames in which nothing leaves the hip centre. *)
Definition still : list Recorder.Frame :=
  [ Recorder.mkFrame 0 (handAt 0);
    Recorder.mkFrame 100 (handAt 0);
    Recorder.mkFrame 200 (handAt 0);
    Recorder.mkFrame 300 (handAt 0);
    Recorder.mkFrame 400 (handAt 0) ].

(** Three feature vectors of two numbers. *)
Definition ramp : list (list R) := [ [0; 10]; [2; 20]; [4; 30] ].

End Samples.

(** ** Notions used in the further properties *)

Module Props.

(** The landmark [applyFilter] returns for the raw landmark [pt] and the
    filters [a] of its index, and the filters it leaves there. *)
Definition smoothLandmark (a : NormalizationEngine.axes) (pt : Pt.t)
    (timestamp : option R) : Pt.t :=
  Pt.mk (fst (OneEuroFilter.filter (NormalizationEngine.x a) (Pt.x pt) timestamp))
        (fst (OneEuroFilter.filter (NormalizationEngine.y a) (Pt.y pt) timestamp))
        (fst (OneEuroFilter.filter (NormalizationEngine.z a) (Pt.z pt) timestamp))
        (JS.or (JS.or (Pt.visibility pt) (Pt.v pt)) (Some 0)) None.

Definition stepAxes (a : NormalizationEngine.axes) (pt : Pt.t)
    (timestamp : option R) : NormalizationEngine.axes :=
  NormalizationEngine.mkAxes
    (snd (OneEuroFilter.filter (NormalizationEngine.x a) (Pt.x pt) timestamp))
    (snd (OneEuroFilter.filter (NormalizationEngine.y a) (Pt.y pt) timestamp))
    (snd (OneEuroFilter.filter (NormalizationEngine.z a) (Pt.z pt) timestamp)).

(** A property of all three filters of every entry of the bank. *)
Definition allFilters (P : OneEuroFilter.t -> Prop)
    (e : NormalizationEngine.t) : Prop :=
  forall a, a ∈ NormalizationEngine.filters e ->
    P (NormalizationEngine.x a) /\ P (NormalizationEngine.y a) /\
    P (NormalizationEngine.z a).

(** A filter with a positive frequency estimate whose last time stamp,
    when it has one, is earlier than [T]. *)
Definition readyBefore (T : R) (f : OneEuroFilter.t) : Prop :=
  0 < OneEuroFilter.freq f /\
  forall t, OneEuroFilter.lastTime f = Some t -> t < T.









(** The index [mirrorPose] moves the landmark of index [i] from. *)
Definition partner (i : nat) : nat :=
  if (i <? 11)%nat then i
  else if (33 <=? i)%nat then i
  else if Nat.odd i then S i else pred i.

End Props.

(** ** The motion metrics in double precision

    A JavaScript number is an IEEE 754 binary64 value.  Which limb and
    which frame [calculateMetrics] reports, and the second decimal of
    its speeds, are decided by comparisons and roundings of such values,
    so this part of [js/recorder.js] is also embedded over the binary64
    numbers of the kernel ([float]): every operation of the source is the
    correctly rounded operation it is in the program. *)

Module Double.

Local Open Scope float_scope.

(** [Math.pow(x, 2)]: the engines return [x * x] for the exponent 2. *)
Definition pow2 (x : float) : float := x * x.

(** The number a finite double stands for: [m * 2^e] with its sign. *)
Definition exact (x : float) : option Q :=
  match Prim2SF x with
  | S754_zero _ => Some 0%Q
  | S754_finite negative m e =>
    Some (Qmake ((if negative then -1 else 1) * Zpos m * 2 ^ Z.max e 0)
                (Z.to_pos (2 ^ Z.max (- e) 0)))
  | _ => None
  end.

(** The integer [n] of [Number.prototype.toFixed] with two digits, for
    the absolute value [m * 2^e] of a finite double: the [n] for which
    [n / 100] is nearest, the larger one of two. *)
Definition hundredths (x : float) : option Z :=
  match Prim2SF x with
  | S754_zero _ => Some 0%Z
  | S754_finite _ m e =>
    let den := (2 ^ Z.max (- e) 0)%Z in
    Some ((200 * Zpos m * 2 ^ Z.max e 0 + den) / (2 * den))%Z
  | _ => None
  end.

(** [parseFloat(x.toFixed(2))]: the digits of [n], with the sign of [x]
    when [x < 0], read back as the nearest double of [n / 100].  NaN and
    the infinities print as their names and read back as themselves;
    from 10^21 on [toFixed] prints the number itself, which is what this
    definition gives, as these doubles are integers. *)
Definition toFixed2 (x : float) : float :=
  match hundredths x with
  | None => x
  | Some n =>
    let negative := x <? 0 in
    match n with
    | Zpos p =>
      SF2Prim (SFdiv prec emax (S754_finite negative p 0)
                                (S754_finite false 100 0))
    | _ => if negative then -0 else 0
    end
  end.

End Double.

(** A landmark as [calculateMetrics] reads it: its three coordinates. *)
Module Pt64.

Record t : Type := mk {
  x : float;
  y : float;
  z : float
}.

End Pt64.

Module Recorder64.

Local Open Scope float_scope.

(** An entry of [processedHistory]: [{time, pose}], [time] in ms. *)
Record Frame : Type := mkFrame {
  time : float;
  pose : list Pt64.t
}.

Definition getMidPoint (p1 p2 : Pt64.t) : Pt64.t :=
  Pt64.mk ((Pt64.x p1 + Pt64.x p2) / 2)
          ((Pt64.y p1 + Pt64.y p2) / 2)
          ((Pt64.z p1 + Pt64.z p2) / 2).

(** [dist] in the inner callback of [calculateMetrics]. *)
Definition extension (frame : Frame) (id : nat) : option float :=
  p23 ← pose frame !! 23%nat; p24 ← pose frame !! 24%nat;
  let hipCenter := getMidPoint p23 p24 in
  limb ← pose frame !! id;
  Some (PrimFloat.sqrt
          (Double.pow2 (Pt64.x limb - Pt64.x hipCenter) +
           Double.pow2 (Pt64.y limb - Pt64.y hipCenter) +
           Double.pow2 (Pt64.z limb - Pt64.z hipCenter))).

(** [history.forEach((frame, i) => ...)] on
    [(localMaxDist, localApexIndex)], from index [i] on; the test is
    [dist > localMaxDist]. *)
Fixpoint scanFrom (i : nat) (frames : list Frame) (id : nat)
    (st : float * nat) : option (float * nat) :=
  match frames with
  | [] => Some st
  | frame :: rest =>
    dist ← extension frame id;
    scanFrom (S i) rest id (if fst st <? dist then (dist, i) else st)
  end.

(** The four variables the outer loop updates. *)
Record Active : Type := mkActive {
  maxExtension : float;
  activePartId : nat;
  activePartName : string;
  apexFrameIndex : nat
}.

(** The [if] that ends a round of [parts.forEach]:
    [localMaxDist > maxExtension]. *)
Definition updateActive (st : Active) (part : nat * string)
    (local : float * nat) : Active :=
  if maxExtension st <? fst local
  then mkActive (fst local) (fst part) (snd part) (snd local)
  else st.

(** One round of [parts.forEach]. *)
Definition considerPart (history : list Frame) (acc : option Active)
    (part : nat * string) : option Active :=
  st ← acc;
  local ← scanFrom 0 history (fst part) (0, 0%nat);
  Some (updateActive st part local).

Definition detectActivePart (history : list Frame) : option Active :=
  fold_left (considerPart history) Recorder.parts
    (Some (mkActive 0 20 "right_hand" 0)).

(** [dist] in the loop of [calculateMaxSpeedInRange], from the landmark
    [p1] of the earlier frame to the landmark [p2] of the later one. *)
Definition stepDistance (p1 p2 : Pt64.t) : float :=
  PrimFloat.sqrt (Double.pow2 (Pt64.x p2 - Pt64.x p1) +
                  Double.pow2 (Pt64.y p2 - Pt64.y p1) +
                  Double.pow2 (Pt64.z p2 - Pt64.z p1)).

(** One round of the [for] loop of [calculateMaxSpeedInRange]. *)
Definition speedStep (history : list Frame) (partId : nat) (scale : float)
    (acc : option float) (i : nat) : option float :=
  maxSpeed ← acc;
  cur ← history !! i;
  prev ← history !! (i - 1)%nat;
  let dt := (time cur - time prev) / 1000 in
  if dt <=? 0 then Some maxSpeed
  else
    p1 ← pose prev !! partId;
    p2 ← pose cur !! partId;
    let dist := stepDistance p1 p2 in
    let speed := dist * scale / dt in
    Some (if (speed <? 25) && (maxSpeed <? speed) then speed else maxSpeed).

Definition calculateMaxSpeedInRange (history : list Frame)
    (startIndex endIndex partId : nat) (scale : float) : option float :=
  if (endIndex <=? startIndex)%nat then Some 0
  else
    maxSpeed ← fold_left (speedStep history partId scale)
                  (seq (S startIndex) (endIndex - startIndex)) (Some 0);
    Some (Double.toFixed2 maxSpeed).

Record Metrics : Type := mkMetrics {
  duration_sec : float;
  active_part : string;
  max_speed_outbound : float;
  max_speed_return : float;
  apex_frame : nat
}.

(** The result of [calculateMetrics]: the empty object [{}] or the
    metrics object. *)
Inductive MetricsResult : Type :=
  | EmptyObject
  | MetricsObject (m : Metrics).

Definition calculateMetrics (history : list Frame) (heightCm : float)
    : option MetricsResult :=
  if (length history <? 5)%nat then Some EmptyObject
  else
    a ← detectActivePart history;
    let heightScale := heightCm / 175 in
    speedOut ← calculateMaxSpeedInRange history 0 (apexFrameIndex a)
                  (activePartId a) heightScale;
    speedRet ← calculateMaxSpeedInRange history (apexFrameIndex a)
                  (length history - 1) (activePartId a) heightScale;
    first ← history !! 0%nat;
    last ← history !! (length history - 1)%nat;
    let durationSec := (time last - time first) / 1000 in
    Some (MetricsObject
            (mkMetrics (Double.toFixed2 durationSec) (activePartName a)
                       speedOut speedRet (apexFrameIndex a))).

End Recorder64.

(** The notions of the specification, on the numbers of the program. *)
Module Spec64.

Local Open Scope float_scope.

(** Section 3: every frame of a window has its 33 landmarks. *)
Definition validWindow (history : list Recorder64.Frame) : Prop :=
  forall frame, frame ∈ history ->
    (33 <= length (Recorder64.pose frame))%nat.

(** Section 4.6, step 1: the distances of a candidate from the hip
    midpoint, frame by frame, as the program computes them. *)
Definition extensions (history : list Recorder64.Frame) (id : nat)
    : option (list float) :=
  mapM (fun frame => Recorder64.extension frame id) history.

(** Frame [k] is the first one at which the distances reach their
    maximum [M]: no distance is above [M], and the distances of the
    frames before [k] are below it. *)
Definition apexAt (ds : list float) (k : nat) (M : float) : Prop :=
  ds !! k = Some M /\
  (forall j d, ds !! j = Some d -> (M <? d) = false) /\
  (forall j d, (j < k)%nat -> ds !! j = Some d -> (d <? M) = true).

(** Section 8: the limb moves away from the hip centre up to frame [k]
    and comes back from frame [k] on. *)
Definition outAndBack (ds : list float) (k : nat) : Prop :=
  (forall j a b, (j < k)%nat ->
     ds !! j = Some a -> ds !! S j = Some b -> (a <? b) = true) /\
  (forall j a b, (k <= j)%nat ->
     ds !! j = Some a -> ds !! S j = Some b -> (b <=? a) = true).

(** The other candidates stay closer to the hip centre than [M]. *)
Definition othersBelow (history : list Recorder64.Frame) (id : nat)
    (M : float) : Prop :=
  forall id' name' ds',
    (id', name') ∈ Recorder.parts -> id' <> id ->
    extensions history id' = Some ds' ->
    forall d, d ∈ ds' -> (d <? M) = true.

(** Section 4.6, step 3: the speed sample of the frame pair [(i-1, i)],
    [distance(p[i-1], p[i]) * heightScale / dt]; there is none when
    [dt <= 0] (the pair is skipped) or when the speed is not below
    25 m/s (the sample is discarded). *)
Definition countedSample (history : list Recorder64.Frame) (partId : nat)
    (heightCm : float) (i : nat) : option float :=
  prev ← history !! (i - 1)%nat;
  cur ← history !! i;
  p1 ← Recorder64.pose prev !! partId;
  p2 ← Recorder64.pose cur !! partId;
  let dt := (Recorder64.time cur - Recorder64.time prev) / 1000 in
  let heightScale := heightCm / 175 in
  let speed := Recorder64.stepDistance p1 p2 * heightScale / dt in
  if dt <=? 0 then None
  else if speed <? 25 then Some speed
  else None.

(** The samples of the phase from frame [startIndex] to frame
    [endIndex]. *)
Definition phaseSamples (history : list Recorder64.Frame) (partId : nat)
    (heightCm : float) (startIndex endIndex : nat) : list float :=
  omap (countedSample history partId heightCm)
       (seq (S startIndex) (endIndex - startIndex)).

(** [m] is the maximum of the speeds [samples], 0 when none of them is
    above 0. *)
Definition greatest (samples : list float) (m : float) : Prop :=
  (forall s, s ∈ samples -> (m <? s) = false) /\
  (m = 0 \/ (m ∈ samples /\ (0 <? m) = true)).

(** Section 8: between frames [i-1] and [i] the limb covers the distance
    [d] in [dt] seconds. *)
Definition constantStep (history : list Recorder64.Frame) (partId : nat)
    (i : nat) (d dt : float) : Prop :=
  exists prev cur p1 p2,
    history !! (i - 1)%nat = Some prev /\ history !! i = Some cur /\
    Recorder64.pose prev !! partId = Some p1 /\
    Recorder64.pose cur !! partId = Some p2 /\
    Recorder64.stepDistance p1 p2 = d /\
    (Recorder64.time cur - Recorder64.time prev) / 1000 = dt.

(** The square of the distance of landmark [id] from the hip midpoint of
    its frame, in exact arithmetic on the coordinates of the frame. *)
Definition exactSquare (frame : Recorder64.Frame) (id : nat) : option Q :=
  p23 ← Recorder64.pose frame !! 23%nat;
  p24 ← Recorder64.pose frame !! 24%nat;
  limb ← Recorder64.pose frame !! id;
  let along (c : Pt64.t -> float) : option Q :=
    a ← Double.exact (c p23); b ← Double.exact (c p24);
    l ← Double.exact (c limb);
    Some ((l - (a + b) / 2) ^ 2)%Q in
  dx ← along Pt64.x; dy ← along Pt64.y; dz ← along Pt64.z;
  Some (dx + dy + dz)%Q.

(** Section 4.6: rounding to two decimal places (the nearest hundredth,
    upwards on a tie), in exact arithmetic. *)
Definition round2 (v : Q) : Q :=
  (inject_Z (Qfloor (v * 100 + (1 # 2))) / 100)%Q.

End Spec64.

Module Samples64.

Local Open Scope float_scope.

(** A pose with the right hand (landmark 20) at [hand] and every other
    landmark at the origin. *)
Definition handAt (hand : Pt64.t) : list Pt64.t :=
  (fun i => if (i =? 20)%nat then hand else Pt64.mk 0 0 0) <$> seq 0 33.

(** A jab of the right hand: five frames 100 ms apart, the hand 0.25
    further out per frame up to frame 2, then back. *)
Definition jab : list Recorder64.Frame :=
  [ Recorder64.mkFrame 0 (handAt (Pt64.mk 0 0 0));
    Recorder64.mkFrame 100 (handAt (Pt64.mk 0.25 0 0));
    Recorder64.mkFrame 200 (handAt (Pt64.mk 0.5 0 0));
    Recorder64.mkFrame 300 (handAt (Pt64.mk 0.25 0 0));
    Recorder64.mkFrame 400 (handAt (Pt64.mk 0 0 0)) ].

(** The right hand moves out up to frame 2, by 2^-30 sideways in the
    last step, and comes back. *)
Definition creep : list Recorder64.Frame :=
  [ Recorder64.mkFrame 0 (handAt (Pt64.mk 0.5 0 0));
    Recorder64.mkFrame 100 (handAt (Pt64.mk 1 0 0));
    Recorder64.mkFrame 200 (handAt (Pt64.mk 1 0x1p-30 0));
    Recorder64.mkFrame 300 (handAt (Pt64.mk 0.5 0 0));
    Recorder64.mkFrame 400 (handAt (Pt64.mk 0 0 0)) ].

(** The right hand moves out by 0.875 per frame, one frame a second. *)
Definition reach : list Recorder64.Frame :=
  [ Recorder64.mkFrame 0 (handAt (Pt64.mk 0 0 0));
    Recorder64.mkFrame 1000 (handAt (Pt64.mk 0.875 0 0));
    Recorder64.mkFrame 2000 (handAt (Pt64.mk 1.75 0 0));
    Recorder64.mkFrame 3000 (handAt (Pt64.mk 2.625 0 0));
    Recorder64.mkFrame 4000 (handAt (Pt64.mk 3.5 0 0)) ].

End Samples64.

(** * Properties *)

(** ** Feature extraction *)

Section FeatureExtraction.
Import NormalizationEngine.

Lemma lookup_of_length {A} (l : list A) (n i : nat) :
  (n <= length l)%nat -> (i < n)%nat -> exists a, l !! i = Some a.
Proof.
  intros Hn Hi. apply lookup_lt_is_Some_2. lia.
Qed.

(** C1: for a pose of at least 33 landmarks, [extractFeaturesV3] returns
    a vector of exactly 24 numbers, and the number at every position
    [i < 24] is the one section 4.4 of the specification puts there. *)
Theorem extractFeaturesV3_layout (pose : list Pt.t) (cog : Pt.t) :
  (33 <= length pose)%nat ->
  exists features,
    extractFeaturesV3 pose cog = Some features /\
    length features = 24%nat /\
    forall i, (i < 24)%nat ->
      features !! i = Spec.featureLayout pose cog i.
Proof.
  intros Hlen.
  destruct (lookup_of_length pose 33 0 Hlen) as [p0 E0]; [lia|].
  destruct (lookup_of_length pose 33 11 Hlen) as [p11 E11]; [lia|].
  destruct (lookup_of_length pose 33 12 Hlen) as [p12 E12]; [lia|].
  destruct (lookup_of_length pose 33 19 Hlen) as [p19 E19]; [lia|].
  destruct (lookup_of_length pose 33 20 Hlen) as [p20 E20]; [lia|].
  destruct (lookup_of_length pose 33 25 Hlen) as [p25 E25]; [lia|].
  destruct (lookup_of_length pose 33 26 Hlen) as [p26 E26]; [lia|].
  destruct (lookup_of_length pose 33 31 Hlen) as [p31 E31]; [lia|].
  destruct (lookup_of_length pose 33 32 Hlen) as [p32 E32]; [lia|].
  unfold extractFeaturesV3.
  rewrite E0, E11, E12, E19, E20, E25, E26, E31, E32. cbn [mbind option_bind].
  eexists. split; [reflexivity|]. split; [reflexivity|].
  intros i Hi. unfold Spec.featureLayout.
  do 24 (destruct i as [|i];
         [ cbn; rewrite ?E0, ?E11, ?E12, ?E19, ?E20, ?E25, ?E26, ?E31, ?E32;
           reflexivity |]).
  lia.
Qed.

(** A pose of 33 landmarks at the origin is an input of the theorem. *)
Lemma extractFeaturesV3_layout_witness :
  exists features,
    extractFeaturesV3 (replicate 33 (Pt.xyz 0 0 0)) (Pt.xyz 0 0 0)
      = Some features /\
    length features = 24%nat /\
    forall i, (i < 24)%nat ->
      features !! i =
      Spec.featureLayout (replicate 33 (Pt.xyz 0 0 0)) (Pt.xyz 0 0 0) i.
Proof.
  apply (extractFeaturesV3_layout (replicate 33 (Pt.xyz 0 0 0)) (Pt.xyz 0 0 0)).
  simpl. lia.
Defined.

End FeatureExtraction.

(** ** Rejected frames *)

Section RejectedFrames.
Import NormalizationEngine.

(** C8: when the landmark list is missing or has fewer than 33 points,
    [process] returns [null] and the engine, with all its filter states,
    is the one it was called with. *)
Theorem process_rejects_short_frame
    (e : NormalizationEngine.t) (landmarks : option (list Pt.t))
    (timestamp : option R) :
  (landmarks = None \/
   exists lms, landmarks = Some lms /\ (length lms < 33)%nat) ->
  process landmarks timestamp e = Some (None, e).
Proof.
  intros [-> | (lms & -> & Hlen)]; unfold process; [reflexivity|].
  apply Nat.ltb_lt in Hlen. rewrite Hlen. reflexivity.
Qed.

(** A frame of 32 landmarks, fed to a fresh engine. *)
Lemma process_rejects_short_frame_witness :
  process (Some (replicate 32 (Pt.xyz 1 2 3))) (Some 0) NormalizationEngine.new
    = Some (None, NormalizationEngine.new).
Proof.
  apply (process_rejects_short_frame NormalizationEngine.new
           (Some (replicate 32 (Pt.xyz 1 2 3))) (Some 0)).
  right. exists (replicate 32 (Pt.xyz 1 2 3)). split; [reflexivity|].
  simpl. lia.
Defined.

End RejectedFrames.

(** ** Stance mirroring *)

Section Mirroring.
Import Recorder.

Lemma flipX_involutive (pt : Pt.t) : flipX (flipX pt) = pt.
Proof.
  destruct pt as [a b c vis v0]. unfold flipX. simpl. f_equal. lra.
Qed.

Lemma flipX_involutive_list (l : list Pt.t) : flipX <$> (flipX <$> l) = l.
Proof.
  induction l as [|pt l IH]; [reflexivity|].
  rewrite !fmap_cons, flipX_involutive, IH. reflexivity.
Qed.

(** The result of [mirrorPose] on a pose given landmark by landmark. *)
Lemma mirrorPose_explicit
    (a0 a1 a2 a3 a4 a5 a6 a7 a8 a9 a10 a11 a12 a13 a14 a15 a16 a17 a18 a19
     a20 a21 a22 a23 a24 a25 a26 a27 a28 a29 a30 a31 a32 : Pt.t)
    (rest : list Pt.t) :
  mirrorPose
    (a0 :: a1 :: a2 :: a3 :: a4 :: a5 :: a6 :: a7 :: a8 :: a9 :: a10 ::
     a11 :: a12 :: a13 :: a14 :: a15 :: a16 :: a17 :: a18 :: a19 :: a20 ::
     a21 :: a22 :: a23 :: a24 :: a25 :: a26 :: a27 :: a28 :: a29 :: a30 ::
     a31 :: a32 :: rest)
  = Some
    (flipX a0 :: flipX a1 :: flipX a2 :: flipX a3 :: flipX a4 :: flipX a5 ::
     flipX a6 :: flipX a7 :: flipX a8 :: flipX a9 :: flipX a10 ::
     flipX a12 :: flipX a11 :: flipX a14 :: flipX a13 ::
     flipX a16 :: flipX a15 :: flipX a18 :: flipX a17 ::
     flipX a20 :: flipX a19 :: flipX a22 :: flipX a21 ::
     flipX a24 :: flipX a23 :: flipX a26 :: flipX a25 ::
     flipX a28 :: flipX a27 :: flipX a30 :: flipX a29 ::
     flipX a32 :: flipX a31 :: (flipX <$> rest)).
Proof. reflexivity. Qed.

(** C7: on a pose of at least 33 landmarks, mirroring twice gives the
    pose back. *)
Theorem mirrorPose_involution (pose0 : list Pt.t) :
  (33 <= length pose0)%nat ->
  exists mirrored,
    mirrorPose pose0 = Some mirrored /\ mirrorPose mirrored = Some pose0.
Proof.
  intros Hlen.
  do 33 (destruct pose0 as [|? pose0]; [simpl in Hlen; lia|]).
  eexists. split; [apply mirrorPose_explicit|].
  rewrite mirrorPose_explicit, !flipX_involutive, flipX_involutive_list.
  reflexivity.
Qed.

(** A pose whose landmark [i] sits at [x = i]. *)
Lemma mirrorPose_involution_witness :
  exists mirrored,
    mirrorPose ((fun i => Pt.xyz (INR i) 0 0) <$> seq 0 33) = Some mirrored /\
    mirrorPose mirrored = Some ((fun i => Pt.xyz (INR i) 0 0) <$> seq 0 33).
Proof.
  apply (mirrorPose_involution ((fun i => Pt.xyz (INR i) 0 0) <$> seq 0 33)).
  rewrite length_fmap, length_seq. lia.
Defined.

End Mirroring.

(** ** The sampling frequency of the adaptive filter *)

Section SamplingFrequency.
Import OneEuroFilter.

Lemma filter_freq (f : OneEuroFilter.t) (value : R) (timestamp : option R) :
  freq (snd (filter f value timestamp)) = updateFreq f timestamp.
Proof. reflexivity. Qed.

Lemma filter_lastTime (f : OneEuroFilter.t) (value : R) (timestamp : option R) :
  lastTime (snd (filter f value timestamp)) = timestamp.
Proof. reflexivity. Qed.

Lemma updateFreq_positive (f : OneEuroFilter.t) (timestamp : option R) :
  0 < freq f ->
  match lastTime f, timestamp with
  | Some t0, Some t1 => t0 < t1
  | _, _ => True
  end ->
  0 < updateFreq f timestamp.
Proof.
  intros Hf Hts. unfold updateFreq.
  destruct (lastTime f) as [t0|], timestamp as [t1|]; try exact Hf.
  apply Rdiv_lt_0_compat; lra.
Qed.




End SamplingFrequency.

(** ** Rigid pose normalisation *)

Section Normalisation.
Import NormalizationEngine.











End Normalisation.

(** ** Active limb and apex frame *)

Section ActivePart.
Import Recorder.

Lemma extension_defined (frame : Frame) (id : nat) :
  (33 <= length (pose frame))%nat -> (id < 33)%nat ->
  exists d, extension frame id = Some d /\ 0 <= d.
Proof.
  intros Hlen Hid.
  destruct (lookup_of_length (pose frame) 33 23 Hlen) as [p23 E23]; [lia|].
  destruct (lookup_of_length (pose frame) 33 24 Hlen) as [p24 E24]; [lia|].
  destruct (lookup_of_length (pose frame) 33 id Hlen Hid) as [limb El].
  unfold extension. rewrite E23, E24. cbn [mbind option_bind]. rewrite El.
  eexists. split; [reflexivity|]. apply sqrt_pos.
Qed.

Lemma extensions_defined (history : list Frame) (id : nat) :
  Spec.validWindow history -> (id < 33)%nat ->
  exists ds, Spec.extensions history id = Some ds /\
             length ds = length history /\
             forall d, d ∈ ds -> 0 <= d.
Proof.
  unfold Spec.validWindow, Spec.extensions. intros Hvalid Hid.
  induction history as [|frame rest IH].
  - exists []. split; [reflexivity|]. split; [reflexivity|].
    intros d Hd. inversion Hd.
  - destruct IH as (ds & Eds & Hl & Hpos).
    { intros f Hf. apply Hvalid. right. exact Hf. }
    destruct (extension_defined frame id) as (d & Ed & Hd); [|exact Hid|].
    { apply Hvalid. left. }
    exists (d :: ds). cbn. rewrite Ed, Eds. cbn.
    split; [reflexivity|]. split; [congruence|].
    intros d' [->|Hin]%elem_of_cons; auto.
Qed.

Lemma extensions_Forall2 (history : list Frame) (id : nat) (ds : list R) :
  Spec.extensions history id = Some ds ->
  Forall2 (fun frame d => extension frame id = Some d) history ds.
Proof. unfold Spec.extensions. apply mapM_Some_1. Qed.


(** A scan never fails on defined distances; it ends on a frame of the
    window or on the index it started with, and below every bound of the
    distances and the running maximum. *)
Lemma scanFrom_range (frames : list Frame) (id : nat) (ds : list R) :
  Forall2 (fun frame d => extension frame id = Some d) frames ds ->
  forall i m0 k0,
    exists m k,
      scanFrom i frames id (m0, k0) = Some (m, k) /\ m0 <= m /\
      (k = k0 \/ (i <= k < i + length frames)%nat) /\
      (forall B, (forall d, d ∈ ds -> d < B) -> m0 < B -> m < B).
Proof.
  induction 1 as [|frame d frames ds Hd Hrest IH]; intros i m0 k0.
  - exists m0, k0. split; [reflexivity|]. split; [lra|].
    split; [left; reflexivity|]. intros B _ HB. exact HB.
  - cbn [scanFrom]. rewrite Hd. cbn [mbind option_bind fst].
    destruct (Rgt_dec d m0) as [Hgt|Hngt].
    + destruct (IH (S i) d i) as (m & k & E & Hm & Hk & Hb).
      exists m, k. split; [exact E|]. split; [lra|]. split.
      * right. cbn [length]. destruct Hk as [->|Hk]; lia.
      * intros B HB _. apply Hb.
        -- intros d' Hd'. apply HB. right. exact Hd'.
        -- apply HB. left.
    + destruct (IH (S i) m0 k0) as (m & k & E & Hm & Hk & Hb).
      exists m, k. split; [exact E|]. split; [lra|]. split.
      * destruct Hk as [->|Hk]; [left; reflexivity|right; cbn [length]; lia].
      * intros B HB Hm0. apply Hb; [|exact Hm0].
        intros d' Hd'. apply HB. right. exact Hd'.
Qed.

(** The state of the outer loop before the first round. *)
Lemma detectActivePart_rounds (history : list Frame)
    (l1 l2 l3 l4 : R * nat) :
  scanFrom 0 history 19 (0, 0%nat) = Some l1 ->
  scanFrom 0 history 20 (0, 0%nat) = Some l2 ->
  scanFrom 0 history 31 (0, 0%nat) = Some l3 ->
  scanFrom 0 history 32 (0, 0%nat) = Some l4 ->
  detectActivePart history =
    Some (updateActive
            (updateActive
               (updateActive
                  (updateActive (mkActive 0 20 "right_hand" 0)
                     (19%nat, "left_hand"%string) l1)
                  (20%nat, "right_hand"%string) l2)
               (31%nat, "left_foot"%string) l3)
            (32%nat, "right_foot"%string) l4).
Proof.
  intros E1 E2 E3 E4. unfold detectActivePart, parts.
  cbn [fold_left considerPart mbind option_bind fst snd].
  rewrite E1. cbn [mbind option_bind]. rewrite E2. cbn [mbind option_bind].
  rewrite E3. cbn [mbind option_bind]. rewrite E4. reflexivity.
Qed.

(** The scan of a candidate over a valid window. *)
Lemma scan_of_valid_window (history : list Frame) (id : nat) :
  Spec.validWindow history -> (id < 33)%nat ->
  exists ds m k,
    Spec.extensions history id = Some ds /\
    scanFrom 0 history id (0, 0%nat) = Some (m, k) /\ 0 <= m /\
    (k = 0%nat \/ (k < length history)%nat) /\
    (forall B, (forall d, d ∈ ds -> d < B) -> 0 < B -> m < B).
Proof.
  intros Hvalid Hid.
  destruct (extensions_defined history id Hvalid Hid) as (ds & Eds & _ & _).
  destruct (scanFrom_range history id ds (extensions_Forall2 _ _ _ Eds)
              0%nat 0 0%nat) as (m & k & E & Hm & Hk & Hb).
  exists ds, m, k. repeat (split; [assumption|]). split; [|exact Hb].
  destruct Hk as [Hk|Hk]; [left; exact Hk|right; lia].
Qed.

Lemma updateActive_invariant (n : nat) (st : Active) (part : nat * string)
    (local : R * nat) :
  (activePartId st, activePartName st) ∈ parts /\
    (apexFrameIndex st < n)%nat ->
  part ∈ parts -> (snd local < n)%nat ->
  (activePartId (updateActive st part local),
   activePartName (updateActive st part local)) ∈ parts /\
    (apexFrameIndex (updateActive st part local) < n)%nat.
Proof.
  intros Hst Hpart Hlocal. unfold updateActive.
  destruct (Rgt_dec _ _); [|exact Hst].
  cbn. destruct part. split; assumption.
Qed.

Lemma parts_ids (id : nat) (name : string) :
  (id, name) ∈ parts -> (id < 33)%nat.
Proof.
  unfold parts. rewrite !elem_of_cons, elem_of_nil.
  intros [H|[H|[H|[H|[]]]]]; injection H as -> _; lia.
Qed.

(** On a valid, non-empty window the detection returns a candidate of
    the table and a frame of the window. *)
Lemma detectActivePart_defined (history : list Frame) :
  (0 < length history)%nat -> Spec.validWindow history ->
  exists a,
    detectActivePart history = Some a /\
    (activePartId a, activePartName a) ∈ parts /\
    (apexFrameIndex a < length history)%nat.
Proof.
  intros Hlen Hvalid.
  destruct (scan_of_valid_window history 19 Hvalid) as (? & m1 & k1 & _ & E1 & _ & H1 & _); [lia|].
  destruct (scan_of_valid_window history 20 Hvalid) as (? & m2 & k2 & _ & E2 & _ & H2 & _); [lia|].
  destruct (scan_of_valid_window history 31 Hvalid) as (? & m3 & k3 & _ & E3 & _ & H3 & _); [lia|].
  destruct (scan_of_valid_window history 32 Hvalid) as (? & m4 & k4 & _ & E4 & _ & H4 & _); [lia|].
  eexists. split; [apply (detectActivePart_rounds _ _ _ _ _ E1 E2 E3 E4)|].
  repeat apply updateActive_invariant;
    try (cbn [snd]; lia);
    try (unfold parts; rewrite !elem_of_cons; tauto).
Qed.

End ActivePart.

(** ** Phase speeds *)

Section PhaseSpeeds.
Import Recorder.

Lemma maxOf_nonneg (samples : list R) : 0 <= Spec.maxOf samples.
Proof.
  induction samples as [|s l IH]; cbn; [lra|].
  eapply Rle_trans; [exact IH|apply Rmax_r].
Qed.

Lemma maxOf_below (samples : list R) (B : R) :
  0 < B -> (forall s, s ∈ samples -> s < B) -> Spec.maxOf samples < B.
Proof.
  intros HB. induction samples as [|s l IH]; intros Hall; cbn; [exact HB|].
  apply Rmax_lub_lt; [apply Hall; left|].
  apply IH. intros s' Hs'. apply Hall. right. exact Hs'.
Qed.

Lemma countedSample_below (history : list Frame) (partId : nat)
    (heightCm : R) (i : nat) (s : R) :
  Spec.countedSample history partId heightCm i = Some s -> s < 25.
Proof.
  unfold Spec.countedSample. intros H.
  destruct (history !! (i - 1)%nat) as [prev|];
    cbn [mbind option_bind] in H; [|discriminate].
  destruct (history !! i) as [cur|];
    cbn [mbind option_bind] in H; [|discriminate].
  destruct (pose prev !! partId);
    cbn [mbind option_bind] in H; [|discriminate].
  destruct (pose cur !! partId);
    cbn [mbind option_bind] in H; [|discriminate].
  destruct (Rle_dec _ 0); [discriminate|].
  destruct (Rlt_dec _ 25); [|discriminate].
  injection H as <-. assumption.
Qed.

Lemma phaseSamples_below (history : list Frame) (partId : nat)
    (heightCm : R) (idxs : list nat) (s : R) :
  s ∈ omap (Spec.countedSample history partId heightCm) idxs -> s < 25.
Proof.
  rewrite list_elem_of_omap. intros (i & _ & Hs).
  exact (countedSample_below _ _ _ _ _ Hs).
Qed.

Lemma toFixed2_round2 (v : R) :
  0 <= v < 25 -> JS.toFixed2 v = Spec.round2 v.
Proof.
  intros Hv. unfold JS.toFixed2, JS.toFixed2_abs, Spec.round2.
  destruct (Rlt_dec v 0); [lra|].
  destruct (Rle_dec 1e21 v); [lra|reflexivity].
Qed.

Lemma round2_0 : Spec.round2 0 = 0.
Proof.
  unfold Spec.round2. rewrite (Zfloor_eq 0); [lra|]. lra.
Qed.

(** One round of the loop takes the maximum with the sample of the
    pair, when there is one. *)
Lemma speedStep_counted (history : list Frame) (partId : nat)
    (heightCm m : R) (i : nat) :
  Spec.validWindow history -> (partId < 33)%nat ->
  (1 <= i < length history)%nat ->
  speedStep history partId (heightCm / 175) (Some m) i =
    Some (match Spec.countedSample history partId heightCm i with
          | Some s => Rmax m s
          | None => m
          end).
Proof.
  intros Hvalid Hid Hi.
  destruct (lookup_lt_is_Some_2 history i) as [cur Ecur]; [lia|].
  destruct (lookup_lt_is_Some_2 history (i - 1)) as [prev Eprev]; [lia|].
  assert (33 <= length (pose cur))%nat as Hc
    by (apply Hvalid, list_elem_of_lookup; eauto).
  assert (33 <= length (pose prev))%nat as Hp
    by (apply Hvalid, list_elem_of_lookup; eauto).
  destruct (lookup_of_length (pose cur) 33 partId Hc Hid) as [p2 E2].
  destruct (lookup_of_length (pose prev) 33 partId Hp Hid) as [p1 E1].
  unfold speedStep, Spec.countedSample.
  cbn [mbind option_bind]. rewrite Ecur, Eprev. cbn [mbind option_bind].
  rewrite E1, E2. cbn [mbind option_bind].
  destruct (Rle_dec _ 0); [reflexivity|].
  replace (sqrt ((Pt.x p2 - Pt.x p1) ^ 2 + (Pt.y p2 - Pt.y p1) ^ 2 +
                 (Pt.z p2 - Pt.z p1) ^ 2))
    with (getDistance p1 p2) by (unfold getDistance; f_equal; ring).
  destruct (Rlt_dec _ 25); [|reflexivity].
  f_equal. unfold Rmax.
  destruct (Rgt_dec _ m), (Rle_dec m _); lra.
Qed.

Lemma speed_loop (history : list Frame) (partId : nat) (heightCm : R) :
  Spec.validWindow history -> (partId < 33)%nat ->
  forall idxs m0,
    0 <= m0 ->
    (forall i, i ∈ idxs -> (1 <= i < length history)%nat) ->
    fold_left (speedStep history partId (heightCm / 175)) idxs (Some m0) =
      Some (Rmax m0
              (Spec.maxOf (omap (Spec.countedSample history partId heightCm)
                                idxs))).
Proof.
  intros Hvalid Hid. induction idxs as [|i idxs IH]; intros m0 Hm0 Hidx.
  - cbn. rewrite Rmax_left; [reflexivity|exact Hm0].
  - cbn [fold_left]. rewrite speedStep_counted; [|assumption..|apply Hidx; left].
    assert (forall j, j ∈ idxs -> (1 <= j < length history)%nat) as Hidx'
      by (intros j Hj; apply Hidx; right; exact Hj).
    cbn [omap list_omap].
    destruct (Spec.countedSample history partId heightCm i) as [s|].
    + rewrite IH; [|eapply Rle_trans; [exact Hm0|apply Rmax_l]|exact Hidx'].
      cbn [Spec.maxOf fold_right]. rewrite Rmax_assoc. reflexivity.
    + apply IH; assumption.
Qed.

(** The loop of [calculateMaxSpeedInRange] computes the rounded maximum
    of the samples of the phase. *)
Lemma calculateMaxSpeedInRange_spec (history : list Frame)
    (startIndex endIndex partId : nat) (heightCm : R) :
  Spec.validWindow history -> (partId < 33)%nat ->
  (endIndex < length history)%nat ->
  calculateMaxSpeedInRange history startIndex endIndex partId (heightCm / 175)
  = Some (Spec.round2
            (Spec.maxOf (Spec.phaseSamples history partId heightCm
                           startIndex endIndex))).
Proof.
  intros Hvalid Hid Hend. unfold calculateMaxSpeedInRange, Spec.phaseSamples.
  destruct (endIndex <=? startIndex)%nat eqn:Hle.
  - apply Nat.leb_le in Hle.
    replace (endIndex - startIndex)%nat with 0%nat by lia.
    cbn. rewrite round2_0. reflexivity.
  - apply Nat.leb_gt in Hle.
    rewrite (speed_loop history partId heightCm Hvalid Hid); [|lra|].
    + cbn [mbind option_bind]. f_equal.
      rewrite Rmax_right by apply maxOf_nonneg.
      apply toFixed2_round2. split; [apply maxOf_nonneg|].
      apply maxOf_below; [lra|]. apply phaseSamples_below.
    + intros i Hi. apply elem_of_seq in Hi. lia.
Qed.

End PhaseSpeeds.

(** ** The metrics of a window *)

Section Metrics.
Import Recorder.

(** [calculateMetrics] on a valid window of five frames or more, given
    the outcome of the detection. *)
Lemma calculateMetrics_runs (history : list Frame) (heightCm : R)
    (a : Active) :
  (5 <= length history)%nat -> Spec.validWindow history ->
  detectActivePart history = Some a ->
  (activePartId a, activePartName a) ∈ parts ->
  (apexFrameIndex a < length history)%nat ->
  exists first last,
    history !! 0%nat = Some first /\
    history !! (length history - 1)%nat = Some last /\
    calculateMetrics history heightCm =
      Some (MetricsObject
              (mkMetrics
                 (JS.toFixed2 ((time last - time first) / 1000))
                 (activePartName a)
                 (Spec.round2
                    (Spec.maxOf
                       (Spec.phaseSamples history (activePartId a) heightCm
                          0 (apexFrameIndex a))))
                 (Spec.round2
                    (Spec.maxOf
                       (Spec.phaseSamples history (activePartId a) heightCm
                          (apexFrameIndex a) (length history - 1))))
                 (apexFrameIndex a))).
Proof.
  intros Hlen Hvalid Ha Hpart Hapex.
  apply parts_ids in Hpart.
  destruct (lookup_lt_is_Some_2 history 0) as [first E0]; [lia|].
  destruct (lookup_lt_is_Some_2 history (length history - 1)) as [last El];
    [lia|].
  exists first, last. split; [exact E0|]. split; [exact El|].
  unfold calculateMetrics.
  destruct (length history <? 5)%nat eqn:Hlt;
    [apply Nat.ltb_lt in Hlt; lia|].
  rewrite Ha. cbn [mbind option_bind].
  rewrite !calculateMaxSpeedInRange_spec by (assumption || lia).
  cbn [mbind option_bind]. rewrite E0, El. reflexivity.
Qed.

(** *** The sample windows *)

Lemma axis_distance (a : R) :
  sqrt ((a - (0 + 0) / 2) ^ 2 + (0 - (0 + 0) / 2) ^ 2 +
        (0 - (0 + 0) / 2) ^ 2) = Rabs a.
Proof.
  replace ((a - (0 + 0) / 2) ^ 2 + (0 - (0 + 0) / 2) ^ 2 +
           (0 - (0 + 0) / 2) ^ 2) with (Rsqr a) by (unfold Rsqr; field).
  apply sqrt_Rsqr_abs.
Qed.

Lemma extension_handAt (t a : R) :
  extension (mkFrame t (Samples.handAt a)) 20 = Some (Rabs a) /\
  extension (mkFrame t (Samples.handAt a)) 19 = Some 0 /\
  extension (mkFrame t (Samples.handAt a)) 31 = Some 0 /\
  extension (mkFrame t (Samples.handAt a)) 32 = Some 0.
Proof.
  assert (forall id b,
            extension (mkFrame t (Samples.handAt a)) id =
              Some (sqrt ((b - (0 + 0) / 2) ^ 2 + (0 - (0 + 0) / 2) ^ 2 +
                          (0 - (0 + 0) / 2) ^ 2)) ->
            extension (mkFrame t (Samples.handAt a)) id = Some (Rabs b))
    as Hnorm by (intros id b ->; rewrite axis_distance; reflexivity).
  rewrite <- Rabs_R0.
  repeat split; apply Hnorm; reflexivity.
Qed.

Lemma handAt_length (a : R) : length (Samples.handAt a) = 33%nat.
Proof. reflexivity. Qed.

Lemma jab_valid : Spec.validWindow Samples.jab.
Proof.
  intros frame Hin. unfold Samples.jab in Hin.
  rewrite !elem_of_cons, elem_of_nil in Hin.
  destruct Hin as [->|[->|[->|[->|[->|[]]]]]]; cbn [pose];
    rewrite handAt_length; lia.
Qed.

Lemma still_valid : Spec.validWindow Samples.still.
Proof.
  intros frame Hin. unfold Samples.still in Hin.
  rewrite !elem_of_cons, elem_of_nil in Hin.
  destruct Hin as [->|[->|[->|[->|[->|[]]]]]]; cbn [pose];
    rewrite handAt_length; lia.
Qed.



End Metrics.

(** ** Time resampling *)

Section Resampling.
Import Recorder.

Lemma lerpFrom_lerp (frameLow frameHigh : list R) (ratio : R) :
  forall idx,
    (idx + length frameLow <= length frameHigh)%nat ->
    lerpFrom idx frameLow frameHigh ratio =
      Some (Spec.lerp frameLow (drop idx frameHigh) ratio).
Proof.
  induction frameLow as [|val rest IH]; intros idx Hlen; [reflexivity|].
  cbn [length] in Hlen. cbn [lerpFrom].
  destruct (lookup_lt_is_Some_2 frameHigh idx) as [hi Ehi]; [lia|].
  rewrite Ehi. cbn [mbind option_bind]. rewrite IH by lia.
  cbn [mbind option_bind].
  rewrite (drop_S _ _ _ Ehi). reflexivity.
Qed.

(** The positions lie in the index range of the input. *)
Lemma position_range (len targetLength i : nat) :
  (1 <= len)%nat -> (i < targetLength)%nat -> (2 <= targetLength)%nat ->
  0 <= Spec.position len targetLength i <= INR len - 1.
Proof.
  intros Hlen Hi HN. unfold Spec.position.
  assert (1 <= INR len) as Hl by (apply (le_INR 1); lia).
  assert (2 <= INR targetLength) as Ht by (apply (le_INR 2); lia).
  assert (0 <= INR i) as Hi0 by apply pos_INR.
  assert (INR i <= INR targetLength - 1) as Hi1.
  { replace (INR targetLength - 1) with (INR (targetLength - 1)).
    - apply le_INR. lia.
    - rewrite minus_INR by lia. reflexivity. }
  set (n := INR targetLength - 1) in *. set (l := INR len - 1) in *.
  assert (0 < n) by (unfold n; lra). assert (0 <= l) by (unfold l; lra).
  split.
  - apply Rmult_le_pos; [exact Hi0|]. apply Rmult_le_pos; [assumption|].
    left. apply Rinv_0_lt_compat. assumption.
  - replace (INR i * (l / n)) with (l * (INR i / n)) by (field; lra).
    rewrite <- (Rmult_1_r l) at 2. apply Rmult_le_compat_l; [assumption|].
    apply Rmult_le_reg_r with n; [assumption|].
    replace (INR i / n * n) with (INR i) by (field; lra). lra.
Qed.

(** The two indices of a position in range are indices of the input. *)
Lemma bracket_range (len : nat) (pos : R) :
  (1 <= len)%nat -> 0 <= pos <= INR len - 1 ->
  (0 <= Zfloor pos < Z.of_nat len)%Z /\
  (0 <= Z.min (Zceil pos) (Z.of_nat len - 1) < Z.of_nat len)%Z.
Proof.
  intros Hlen [H0 H1].
  pose proof (Zfloor_bound pos) as [Hf _].
  pose proof (Zceil_bound pos) as [_ Hc].
  rewrite INR_IZR_INZ in H1.
  assert (0 <= Zfloor pos)%Z by (apply Zfloor_lub; exact H0).
  assert (Zfloor pos < Z.of_nat len)%Z.
  { apply lt_IZR. lra. }
  assert (0 <= Zceil pos)%Z.
  { apply le_IZR. lra. }
  lia.
Qed.

(** On an input of vectors of one shape the body of the loop computes
    the interpolated element of the specification. *)
Lemma resampleAt_interpolated (data : list (list R)) (targetLen i : nat) :
  Spec.rectangular data -> (1 <= length data)%nat ->
  (i < targetLen)%nat -> (2 <= targetLen)%nat ->
  exists frame,
    resampleAt data ((INR (length data) - 1) / (INR targetLen - 1)) i
      = Some frame /\
    Spec.interpolated data targetLen i = Some frame.
Proof.
  intros Hrect Hlen Hi HN.
  pose proof (position_range (length data) targetLen i Hlen Hi HN) as Hpos.
  destruct (bracket_range (length data) _ Hlen Hpos) as [Hlo Hhi].
  unfold resampleAt, Spec.interpolated, JS.index.
  fold (Spec.position (length data) targetLen i).
  set (pos := Spec.position (length data) targetLen i) in *.
  destruct (Zfloor pos <? 0)%Z eqn:E1; [apply Z.ltb_lt in E1; lia|].
  destruct (Z.min (Zceil pos) (Z.of_nat (length data) - 1) <? 0)%Z eqn:E2;
    [apply Z.ltb_lt in E2; lia|].
  destruct (lookup_lt_is_Some_2 data (Z.to_nat (Zfloor pos)))
    as [low Elow]; [lia|].
  destruct (lookup_lt_is_Some_2 data
              (Z.to_nat (Z.min (Zceil pos) (Z.of_nat (length data) - 1))))
    as [high Ehigh]; [lia|].
  rewrite Elow, Ehigh. cbn [mbind option_bind].
  rewrite lerpFrom_lerp.
  - rewrite drop_0. eexists. split; reflexivity.
  - rewrite (Hrect low high); [lia| |];
      apply list_elem_of_lookup; eauto.
Qed.

(** C5, as the code has it: the empty input gives the empty output, not
    three elements. *)
Lemma resampleTimeSeries_empty_not_target_length :
  resampleTimeSeries [] 3 = Some [] /\
  length (@nil (list R)) <> 3%nat.
Proof. split; [reflexivity|discriminate]. Qed.

(** C5, amended: on an input of vectors of one shape, with a target
    length other than 1 when the input has two elements or more,
    [resampleTimeSeries] returns a sequence; it is empty for the empty
    input and has [targetLen] elements otherwise; for a single-element
    input these are copies of that element, and for a longer input the
    element at each position is the interpolation of the specification
    between the two bracketing input elements. *)
Theorem resampleTimeSeries_elements (data : list (list R)) (targetLen : nat) :
  Spec.rectangular data ->
  (targetLen <> 1%nat \/ (length data <= 1)%nat) ->
  exists out,
    resampleTimeSeries data targetLen = Some out /\
    (data = [] -> out = []) /\
    (data <> [] -> length out = targetLen) /\
    (forall v, data = [v] -> out = replicate targetLen v) /\
    ((2 <= length data)%nat ->
     forall i, (i < targetLen)%nat ->
       out !! i = Spec.interpolated data targetLen i).
Proof.
  intros Hrect HN.
  destruct data as [|d [|d' rest]].
  - exists []. split; [reflexivity|]. split; [reflexivity|].
    split; [congruence|]. split; [discriminate|]. cbn. lia.
  - exists (replicate targetLen d). split; [reflexivity|].
    split; [discriminate|]. split; [intros _; apply length_replicate|].
    split; [intros v [= <-]; reflexivity|]. cbn. lia.
  - assert (targetLen <> 1%nat) as HN1 by (destruct HN; [assumption|cbn in *; lia]).
    set (data := d :: d' :: rest) in *.
    assert (2 <= length data)%nat as Hlen by (cbn; lia).
    assert (resampleTimeSeries data targetLen =
            mapM (resampleAt data ((INR (length data) - 1) / (INR targetLen - 1)))
                 (seq 0 targetLen)) as Eres.
    { unfold resampleTimeSeries, data.
      destruct (targetLen =? 1)%nat eqn:E; [apply Nat.eqb_eq in E; lia|].
      reflexivity. }
    assert (forall i, (i < targetLen)%nat ->
              exists frame,
                resampleAt data ((INR (length data) - 1) / (INR targetLen - 1)) i
                  = Some frame /\
                Spec.interpolated data targetLen i = Some frame) as Hat.
    { intros i Hi. apply resampleAt_interpolated; [assumption|lia..]. }
    destruct (mapM_is_Some_2
                (resampleAt data ((INR (length data) - 1) / (INR targetLen - 1)))
                (seq 0 targetLen)) as [out Eout].
    { apply Forall_forall. intros i Hi. apply elem_of_seq in Hi.
      destruct (Hat i) as (frame & E & _); [lia|].
      unfold compose. rewrite E. eauto. }
    pose proof (mapM_Some_1 _ _ _ Eout) as Hall.
    pose proof (Forall2_length _ _ _ Hall) as Hl. rewrite length_seq in Hl.
    exists out. rewrite Eres. split; [exact Eout|].
    split; [discriminate|]. split; [congruence|].
    split; [discriminate|].
    intros _ i Hi.
    destruct (Forall2_lookup_l _ _ _ i i Hall) as (frame & Ef & Er).
    { apply lookup_seq. lia. }
    destruct (Hat i Hi) as (frame' & E & Espec).
    rewrite Ef, Espec. congruence.
Qed.

Lemma lerp_same (frame : list R) (ratio : R) :
  Spec.lerp frame frame ratio = frame.
Proof.
  unfold Spec.lerp. induction frame as [|a l IH]; [reflexivity|].
  cbn [zip_with]. rewrite IH. f_equal. ring.
Qed.

Lemma mapM_seq_lookup {A} (f : nat -> option A) (l : list A) :
  forall s,
    (forall i a, l !! i = Some a -> f (s + i)%nat = Some a) ->
    mapM f (seq s (length l)) = Some l.
Proof.
  induction l as [|a l IH]; intros s Hf; [reflexivity|].
  cbn [length seq mapM]. rewrite <- (Nat.add_0_r s) at 1.
  rewrite (Hf 0%nat a) by reflexivity. cbn [mbind option_bind].
  rewrite (IH (S s)).
  - reflexivity.
  - intros i b Hi. rewrite Nat.add_succ_comm. apply (Hf (S i)). exact Hi.
Qed.

(** With step 1 the body of the loop returns the input element. *)
Lemma resampleAt_identity (data : list (list R)) (i : nat) (frame : list R) :
  data !! i = Some frame -> resampleAt data 1 i = Some frame.
Proof.
  intros Ei. pose proof (lookup_lt_Some _ _ _ Ei) as Hi.
  unfold resampleAt, JS.index. rewrite Rmult_1_r, INR_IZR_INZ.
  unfold Zceil. rewrite ZfloorNZ, ZfloorZ, Z.opp_involutive.
  rewrite Z.min_l by lia.
  destruct (Z.of_nat i <? 0)%Z eqn:E; [apply Z.ltb_lt in E; lia|].
  rewrite Nat2Z.id, Ei. cbn [mbind option_bind].
  rewrite lerpFrom_lerp by lia. rewrite drop_0, lerp_same. reflexivity.
Qed.

(** C6: resampling a sequence of two elements or more to its own length
    returns the sequence. *)
Theorem resampleTimeSeries_own_length (data : list (list R)) :
  (2 <= length data)%nat ->
  resampleTimeSeries data (length data) = Some data.
Proof.
  intros Hlen.
  destruct data as [|d [|d' rest]]; [cbn in Hlen; lia..|].
  set (data := d :: d' :: rest) in *.
  unfold resampleTimeSeries. fold data.
  destruct (length data =? 1)%nat eqn:E; [apply Nat.eqb_eq in E; lia|].
  assert (2 <= INR (length data)) by (apply (le_INR 2); exact Hlen).
  replace ((INR (length data) - 1) / (INR (length data) - 1)) with 1
    by (field; lra).
  apply mapM_seq_lookup. intros i frame Ei. apply resampleAt_identity.
  exact Ei.
Qed.

(** The ramp sample resampled to five elements: the second one lies
    half-way between the first two input vectors. *)
Lemma resampleTimeSeries_elements_witness :
  exists out,
    resampleTimeSeries Samples.ramp 5 = Some out /\
    length out = 5%nat /\ out !! 1%nat = Some [1; 15].
Proof.
  destruct (resampleTimeSeries_elements Samples.ramp 5)
    as (out & E & _ & Hlen & _ & Hat).
  - intros a b Ha Hb. unfold Samples.ramp in Ha, Hb.
    rewrite !elem_of_cons, elem_of_nil in Ha.
    rewrite !elem_of_cons, elem_of_nil in Hb.
    destruct Ha as [->|[->|[->|[]]]]; destruct Hb as [->|[->|[->|[]]]];
      reflexivity.
  - left. lia.
  - exists out. split; [exact E|]. split; [apply Hlen; discriminate|].
    rewrite Hat by (cbn; lia).
    unfold Spec.interpolated, Spec.position, Zceil.
    unfold Samples.ramp. cbn [length INR].
    rewrite (Zfloor_eq 0) by lra. rewrite (Zfloor_eq (-1)) by lra.
    change (Z.to_nat 0) with 0%nat.
    change (Z.to_nat (Z.min (- (-1)) (Z.of_nat 3 - 1))) with 1%nat.
    cbn [lookup list_lookup mbind option_bind Spec.lerp zip_with].
    apply f_equal. apply f_equal2; [lra|].
    apply f_equal2; [lra|reflexivity].
Defined.

(** The ramp sample resampled to its own three elements. *)
Lemma resampleTimeSeries_own_length_witness :
  resampleTimeSeries Samples.ramp 3 = Some Samples.ramp.
Proof.
  apply (resampleTimeSeries_own_length Samples.ramp). cbn. lia.
Defined.

End Resampling.

(** ** The filter bank *)

Section FilterBank.
Import NormalizationEngine.

(** The two components of the result of [OneEuroFilter.filter]. *)
Lemma filter_output (f : OneEuroFilter.t) (value : R) (timestamp : option R) :
  fst (OneEuroFilter.filter f value timestamp) =
    match LowPassFilter.s (OneEuroFilter.x f) with
    | None => value
    | Some s0 =>
      let freq1 := OneEuroFilter.updateFreq f timestamp in
      let dvalue :=
        match LowPassFilter.lastRawValue (OneEuroFilter.x f) with
        | Some last => (value - last) * freq1
        | None => 0
        end in
      let edvalue :=
        fst (LowPassFilter.filterWithAlpha (OneEuroFilter.dx f) dvalue
               (OneEuroFilter.alpha freq1 (OneEuroFilter.dCutoff f))) in
      let a := OneEuroFilter.alpha freq1
                 (OneEuroFilter.minCutoff f +
                  OneEuroFilter.beta f * Rabs edvalue) in
      a * value + (1 - a) * s0
    end.
Proof.
  unfold OneEuroFilter.filter, LowPassFilter.filterWithAlpha,
    LowPassFilter.filter. cbn.
  destruct (LowPassFilter.s (OneEuroFilter.x f)); reflexivity.
Qed.

(** What [applyFilterFrom] returns and leaves in the bank. *)
Lemma applyFilterFrom_spec (timestamp : option R) (landmarks : list Pt.t) :
  forall i fs,
    (33 <= length fs)%nat ->
    exists out fs',
      applyFilterFrom i landmarks timestamp fs = Some (out, fs') /\
      length out = length landmarks /\
      length fs' = length fs /\
      (forall k pt, landmarks !! k = Some pt -> (33 <= i + k)%nat ->
         out !! k = Some pt) /\
      (forall k pt a, landmarks !! k = Some pt -> (i + k < 33)%nat ->
         fs !! (i + k)%nat = Some a ->
         out !! k = Some (Props.smoothLandmark a pt timestamp) /\
         fs' !! (i + k)%nat = Some (Props.stepAxes a pt timestamp)) /\
      (forall j, (j < i)%nat \/ (i + length landmarks <= j)%nat \/
                 (33 <= j)%nat ->
         fs' !! j = fs !! j).
Proof.
  induction landmarks as [|pt rest IH]; intros i fs Hfs.
  - exists [], fs. cbn. repeat split; try reflexivity;
      intros; rewrite ?lookup_nil in *; discriminate.
  - cbn [applyFilterFrom].
    destruct (33 <=? i)%nat eqn:Hi.
    + apply Nat.leb_le in Hi.
      destruct (IH (S i) fs Hfs) as (out & fs' & E & Hlo & Hlf & Hraw & _ & Hkeep).
      rewrite E. cbn [mbind option_bind].
      exists (pt :: out), fs'. split; [reflexivity|].
      split; [cbn; lia|]. split; [exact Hlf|]. split; [|split].
      * intros [|k] p Hk Hge; [cbn in *; congruence|].
        cbn in *. apply Hraw; [exact Hk|lia].
      * intros k p a _ Hlt. lia.
      * intros j Hj. destruct (Nat.le_gt_cases 33 j) as [Hj33|Hj33].
        -- apply Hkeep. right. right. exact Hj33.
        -- apply Hkeep. left. lia.
    + apply Nat.leb_gt in Hi.
      destruct (lookup_lt_is_Some_2 fs i) as [a Ea]; [lia|].
      rewrite Ea. cbn [mbind option_bind].
      destruct (OneEuroFilter.filter (x a) (Pt.x pt) timestamp) as [vx fx] eqn:Ex.
      destruct (OneEuroFilter.filter (y a) (Pt.y pt) timestamp) as [vy fy] eqn:Ey.
      destruct (OneEuroFilter.filter (z a) (Pt.z pt) timestamp) as [vz fz] eqn:Ez.
      destruct (IH (S i) (<[i := mkAxes fx fy fz]> fs))
        as (out & fs' & E & Hlo & Hlf & Hraw & Hsm & Hkeep);
        [rewrite length_insert; exact Hfs|].
      rewrite E. cbn [mbind option_bind].
      eexists _, fs'. split; [reflexivity|].
      split; [cbn; lia|]. split; [rewrite Hlf; apply length_insert|].
      split; [|split].
      * intros [|k] p Hk Hge; [lia|].
        cbn in *. apply Hraw; [exact Hk|lia].
      * intros [|k] p a' Hk Hlt Ha'.
        -- cbn in Hk. injection Hk as <-. rewrite Nat.add_0_r in *.
           rewrite Ea in Ha'. injection Ha' as <-.
           unfold Props.smoothLandmark, Props.stepAxes.
           rewrite Ex, Ey, Ez. cbn [fst snd]. split; [reflexivity|].
           rewrite Hkeep by (left; lia).
           apply list_lookup_insert_eq. lia.
        -- cbn in Hk. cbn [lookup list_lookup].
           replace (i + S k)%nat with (S i + k)%nat in * by lia.
           apply Hsm; [exact Hk|lia|].
           rewrite list_lookup_insert_ne by lia. exact Ha'.
      * intros j Hj. cbn [length] in Hj.
        rewrite Hkeep by lia. apply list_lookup_insert_ne. lia.
Qed.

End FilterBank.

(** ** Centre of gravity *)

Section CentreOfGravity.
Import NormalizationEngine.

(** The weighted mean [calculateCOG] takes of one coordinate. *)
Lemma calculateCOG_explicit
    (a0 a1 a2 a3 a4 a5 a6 a7 a8 a9 a10 a11 a12 a13 a14 a15 a16 a17 a18 a19
     a20 a21 a22 a23 a24 a25 a26 a27 a28 a29 a30 a31 a32 : Pt.t)
    (rest : list Pt.t) :
  exists cog,
    calculateCOG
      (a0 :: a1 :: a2 :: a3 :: a4 :: a5 :: a6 :: a7 :: a8 :: a9 :: a10 ::
       a11 :: a12 :: a13 :: a14 :: a15 :: a16 :: a17 :: a18 :: a19 :: a20 ::
       a21 :: a22 :: a23 :: a24 :: a25 :: a26 :: a27 :: a28 :: a29 :: a30 ::
       a31 :: a32 :: rest) = Some cog /\
    Pt.visibility cog = None /\ Pt.v cog = None /\
    forall c : Pt.t -> R,
      c = Pt.x \/ c = Pt.y \/ c = Pt.z ->
      c cog =
        (((c a11 + c a12) / 2 + (c a23 + c a24) / 2) / 2 * 0.50 +
         c a0 * 0.07 +
         (c a11 + c a13) / 2 * 0.028 + (c a12 + c a14) / 2 * 0.028 +
         (c a13 + c a15) / 2 * 0.016 + (c a14 + c a16) / 2 * 0.016 +
         (c a15 + c a17 + c a19 + c a21) / 4 * 0.006 +
         (c a16 + c a18 + c a20 + c a22) / 4 * 0.006 +
         (c a23 + c a25) / 2 * 0.10 + (c a24 + c a26) / 2 * 0.10 +
         (c a25 + c a27) / 2 * 0.0465 + (c a26 + c a28) / 2 * 0.0465 +
         (c a27 + c a29 + c a31) / 3 * 0.0145 +
         (c a28 + c a30 + c a32) / 3 * 0.0145) / 0.992.
Proof.
  unfold calculateCOG, segments.
  cbn [lookup list_lookup mbind option_bind fold_left addSegment segmentSum
       fst snd length INR getMidPoint Pt.xyz Pt.x Pt.y Pt.z].
  eexists. split; [reflexivity|]. split; [reflexivity|].
  split; [reflexivity|].
  intros c [-> | [-> | ->]]; cbn [Pt.xyz Pt.x Pt.y Pt.z]; lra.
Qed.




End CentreOfGravity.

(** ** applyFilter on the engine *)

Section ApplyFilter.
Import NormalizationEngine.

Lemma applyFilter_spec (e : NormalizationEngine.t) (landmarks : list Pt.t)
    (timestamp : option R) :
  (33 <= length (filters e))%nat ->
  exists out fs',
    applyFilter landmarks timestamp e =
      Some (out, mk (minCutoff e) (beta e) (dCutoff e) fs') /\
    length out = length landmarks /\
    length fs' = length (filters e) /\
    (forall k pt, landmarks !! k = Some pt -> (33 <= k)%nat ->
       out !! k = Some pt) /\
    (forall k pt a, landmarks !! k = Some pt -> (k < 33)%nat ->
       filters e !! k = Some a ->
       out !! k = Some (Props.smoothLandmark a pt timestamp) /\
       fs' !! k = Some (Props.stepAxes a pt timestamp)) /\
    (forall j, (length landmarks <= j)%nat \/ (33 <= j)%nat ->
       fs' !! j = filters e !! j).
Proof.
  intros Hfs.
  destruct (applyFilterFrom_spec timestamp landmarks 0 (filters e) Hfs)
    as (out & fs' & E & Hlo & Hlf & Hraw & Hsm & Hkeep).
  exists out, fs'. unfold applyFilter. rewrite E. cbn [mbind option_bind].
  split; [reflexivity|]. split; [exact Hlo|]. split; [exact Hlf|].
  split; [|split].
  - intros k pt Hk Hge. apply (Hraw k pt Hk). lia.
  - intros k pt a Hk Hlt Ha. apply (Hsm k pt a Hk); [lia|exact Ha].
  - intros j Hj. apply Hkeep. lia.
Qed.

(** X2: on an engine with its 33 filter entries [applyFilter] never
    fails; it returns as many landmarks as it was given, hands back the
    landmarks from index 33 on as they are, keeps the size of the bank
    and leaves the filters beyond the frame untouched. *)
Theorem applyFilter_shape (e : NormalizationEngine.t)
    (landmarks : list Pt.t) (timestamp : option R) :
  (33 <= length (filters e))%nat ->
  exists out e',
    applyFilter landmarks timestamp e = Some (out, e') /\
    length out = length landmarks /\
    length (filters e') = length (filters e) /\
    (forall k pt, (33 <= k)%nat -> landmarks !! k = Some pt ->
       out !! k = Some pt) /\
    (forall j, (length landmarks <= j)%nat ->
       filters e' !! j = filters e !! j).
Proof.
  intros Hfs.
  destruct (applyFilter_spec e landmarks timestamp Hfs)
    as (out & fs' & E & Hlo & Hlf & Hraw & _ & Hkeep).
  eexists out, _. split; [exact E|]. cbn [filters].
  split; [exact Hlo|]. split; [exact Hlf|]. split.
  - intros k pt Hk Hpt. apply Hraw; assumption.
  - intros j Hj. apply Hkeep. left. exact Hj.
Qed.

(** A frame of 34 landmarks on a fresh engine. *)
Lemma applyFilter_shape_witness :
  exists out e',
    applyFilter (replicate 34 (Pt.xyz 1 2 3)) (Some 0) NormalizationEngine.new
      = Some (out, e') /\
    length out = 34%nat /\
    length (filters e') = 33%nat /\
    (forall k pt, (33 <= k)%nat ->
       replicate 34 (Pt.xyz 1 2 3) !! k = Some pt -> out !! k = Some pt) /\
    (forall j, (34 <= j)%nat ->
       filters e' !! j = filters NormalizationEngine.new !! j).
Proof.
  apply (applyFilter_shape NormalizationEngine.new
           (replicate 34 (Pt.xyz 1 2 3)) (Some 0)).
  cbn. lia.
Defined.

Lemma filter_first_sample (f : OneEuroFilter.t) (value : R)
    (timestamp : option R) :
  LowPassFilter.s (OneEuroFilter.x f) = None ->
  fst (OneEuroFilter.filter f value timestamp) = value.
Proof. intros Hs. rewrite filter_output, Hs. reflexivity. Qed.

(** X3: the first frame of a session is not smoothed: on a fresh engine
    [applyFilter] returns the coordinates of each of the first 33
    landmarks as they came, with [visibility || v || 0] as visibility. *)
Theorem applyFilter_first_frame (landmarks : list Pt.t)
    (timestamp : option R) (k : nat) (pt : Pt.t) :
  landmarks !! k = Some pt -> (k < 33)%nat ->
  exists out e',
    applyFilter landmarks timestamp NormalizationEngine.new = Some (out, e') /\
    out !! k =
      Some (Pt.mk (Pt.x pt) (Pt.y pt) (Pt.z pt)
              (JS.or (JS.or (Pt.visibility pt) (Pt.v pt)) (Some 0)) None).
Proof.
  intros Hk Hlt.
  destruct (applyFilter_spec NormalizationEngine.new landmarks timestamp)
    as (out & fs' & E & _ & _ & _ & Hsm & _); [cbn; lia|].
  eexists out, _. split; [exact E|].
  destruct (Hsm k pt (mkAxes (OneEuroFilter.new 30 1 0 1)
                        (OneEuroFilter.new 30 1 0 1)
                        (OneEuroFilter.new 30 1 0 1)) Hk Hlt) as [Hout _].
  { unfold NormalizationEngine.new. cbn [filters].
    apply lookup_replicate_2. exact Hlt. }
  rewrite Hout. unfold Props.smoothLandmark. cbn [x y z].
  rewrite !filter_first_sample by reflexivity. reflexivity.
Qed.

(** The right hand of the sample pose with the hand at 0.3. *)
Lemma applyFilter_first_frame_witness :
  exists out e',
    applyFilter (Samples.handAt 0.3) (Some 0) NormalizationEngine.new
      = Some (out, e') /\
    out !! 20%nat = Some (Pt.mk 0.3 0 0 (Some 0) None).
Proof.
  destruct (applyFilter_first_frame (Samples.handAt 0.3) (Some 0) 20
              (Pt.xyz 0.3 0 0)) as (out & e' & E & Hout).
  - reflexivity.
  - lia.
  - exists out, e'. split; [exact E|]. exact Hout.
Defined.

End ApplyFilter.

(** ** More on the rigid normalisation *)

Section NormalisationMore.
Import NormalizationEngine.


Lemma rotatedPose_defined (pose : list Pt.t) (p23 p24 : Pt.t) :
  pose !! 23%nat = Some p23 -> pose !! 24%nat = Some p24 ->
  exists rotated angleY,
    rotatedPose pose = Some (rotated, getMidPoint p23 p24, angleY) /\
    length rotated = length pose.
Proof.
  intros E23 E24. unfold rotatedPose, hipYaw.
  rewrite E23, E24. cbn [mbind option_bind].
  rewrite !list_lookup_fmap, E23, E24.
  cbn [mbind option_bind fmap option_fmap option_map].
  eexists _, _. split; [reflexivity|]. rewrite !length_fmap. reflexivity.
Qed.















End NormalisationMore.

(** ** Ranges of the features *)

Section FeatureRanges.
Import NormalizationEngine.

Lemma atan2_range (y x : R) : - PI < JS.atan2 y x <= PI.
Proof.
  pose proof PI_RGT_0 as Hpi. unfold JS.atan2.
  pose proof (atan_bound (y / x)) as [Hlo Hhi].
  destruct (Rlt_dec 0 x); [lra|].
  destruct (Rlt_dec x 0) as [Hneg|].
  - destruct (Rle_dec 0 y) as [Hy|Hy].
    + assert (atan (y / x) <= 0); [|lra].
      destruct (Req_dec y 0) as [-> | Hy0].
      * unfold Rdiv. rewrite Rmult_0_l, atan_0. lra.
      * left. rewrite <- atan_0. apply atan_increasing.
        unfold Rdiv. apply Rmult_pos_neg; [lra|].
        apply Rinv_lt_0_compat. exact Hneg.
    + assert (0 < atan (y / x)); [|lra].
      rewrite <- atan_0. apply atan_increasing.
      unfold Rdiv. apply Rmult_neg_neg; [lra|].
      apply Rinv_lt_0_compat. exact Hneg.
  - destruct (Rlt_dec 0 y); [lra|]. destruct (Rlt_dec y 0); lra.
Qed.

(** X9: in the feature vector of a pose of 33 landmarks or more the
    shoulder torsion (position 19) is an angle of at least -180 and at
    most 180 degrees, and the two guard distances (positions 22 and 23)
    are not negative. *)
Theorem extractFeaturesV3_ranges (pose : list Pt.t) (cog : Pt.t) :
  (33 <= length pose)%nat ->
  exists features angle leftGuard rightGuard,
    extractFeaturesV3 pose cog = Some features /\
    features !! 19%nat = Some angle /\ -180 <= angle <= 180 /\
    features !! 22%nat = Some leftGuard /\ 0 <= leftGuard /\
    features !! 23%nat = Some rightGuard /\ 0 <= rightGuard.
Proof.
  intros Hlen.
  destruct (lookup_of_length pose 33 0 Hlen) as [p0 E0]; [lia|].
  destruct (lookup_of_length pose 33 11 Hlen) as [p11 E11]; [lia|].
  destruct (lookup_of_length pose 33 12 Hlen) as [p12 E12]; [lia|].
  destruct (lookup_of_length pose 33 19 Hlen) as [p19 E19]; [lia|].
  destruct (lookup_of_length pose 33 20 Hlen) as [p20 E20]; [lia|].
  destruct (lookup_of_length pose 33 25 Hlen) as [p25 E25]; [lia|].
  destruct (lookup_of_length pose 33 26 Hlen) as [p26 E26]; [lia|].
  destruct (lookup_of_length pose 33 31 Hlen) as [p31 E31]; [lia|].
  destruct (lookup_of_length pose 33 32 Hlen) as [p32 E32]; [lia|].
  unfold extractFeaturesV3.
  rewrite E0, E11, E12, E19, E20, E25, E26, E31, E32. cbn [mbind option_bind].
  do 4 eexists. split; [reflexivity|].
  split; [reflexivity|]. split.
  - pose proof PI_RGT_0 as Hpi.
    pose proof (atan2_range (Pt.z p11 - Pt.z p12) (Pt.x p11 - Pt.x p12))
      as [Hlo Hhi].
    set (a := JS.atan2 _ _) in *.
    assert (0 < 180 / PI) as Hk by (apply Rdiv_lt_0_compat; lra).
    assert (PI * (180 / PI) = 180) as Hc by (field; lra).
    set (c := 180 / PI) in *. clearbody a c. split; nra.
  - split; [reflexivity|]. split; [apply sqrt_pos|].
    split; [reflexivity|]. apply sqrt_pos.
Qed.

Lemma extractFeaturesV3_ranges_witness :
  exists features angle leftGuard rightGuard,
    extractFeaturesV3 Samples.upright (Pt.xyz 0 0 0) = Some features /\
    features !! 19%nat = Some angle /\ -180 <= angle <= 180 /\
    features !! 22%nat = Some leftGuard /\ 0 <= leftGuard /\
    features !! 23%nat = Some rightGuard /\ 0 <= rightGuard.
Proof.
  apply (extractFeaturesV3_ranges Samples.upright (Pt.xyz 0 0 0)).
  cbn. lia.
Defined.

End FeatureRanges.

(** ** A frame through the engine *)

Section ProcessFrame.
Import NormalizationEngine.

Lemma calculateCOG_defined (pose : list Pt.t) :
  (33 <= length pose)%nat -> exists cog, calculateCOG pose = Some cog.
Proof.
  intros Hlen.
  do 33 (destruct pose as [|? pose]; [cbn in Hlen; lia|]).
  match goal with
  | |- context [calculateCOG (?a0 :: ?a1 :: ?a2 :: ?a3 :: ?a4 :: ?a5 ::
         ?a6 :: ?a7 :: ?a8 :: ?a9 :: ?a10 :: ?a11 :: ?a12 :: ?a13 :: ?a14 ::
         ?a15 :: ?a16 :: ?a17 :: ?a18 :: ?a19 :: ?a20 :: ?a21 :: ?a22 ::
         ?a23 :: ?a24 :: ?a25 :: ?a26 :: ?a27 :: ?a28 :: ?a29 :: ?a30 ::
         ?a31 :: ?a32 :: _)] =>
    destruct (calculateCOG_explicit a0 a1 a2 a3 a4 a5 a6 a7 a8 a9 a10 a11
                a12 a13 a14 a15 a16 a17 a18 a19 a20 a21 a22 a23 a24 a25 a26
                a27 a28 a29 a30 a31 a32 pose) as (cog & E & _)
  end.
  exists cog. exact E.
Qed.

Lemma normalizePose_defined (pose : list Pt.t) (cog : Pt.t) :
  (25 <= length pose)%nat ->
  exists normPose normCog,
    normalizePose pose cog = Some (normPose, normCog) /\
    length normPose = length pose.
Proof.
  intros Hlen.
  destruct (lookup_lt_is_Some_2 pose 23) as [p23 E23]; [lia|].
  destruct (lookup_lt_is_Some_2 pose 24) as [p24 E24]; [lia|].
  destruct (rotatedPose_defined pose p23 p24 E23 E24)
    as (rotated & angleY & Hrot & Hlrot).
  destruct (lookup_lt_is_Some_2 rotated 11) as [r11 E11]; [lia|].
  destruct (lookup_lt_is_Some_2 rotated 12) as [r12 E12]; [lia|].
  unfold normalizePose. rewrite Hrot, E11, E12. cbn [mbind option_bind].
  eexists _, _. split; [reflexivity|]. rewrite length_fmap. exact Hlrot.
Qed.

Lemma extractFeaturesV3_defined (pose : list Pt.t) (cog : Pt.t) :
  (33 <= length pose)%nat ->
  exists features,
    extractFeaturesV3 pose cog = Some features /\ length features = 24%nat.
Proof.
  intros Hlen.
  destruct (lookup_of_length pose 33 0 Hlen) as [p0 E0]; [lia|].
  destruct (lookup_of_length pose 33 11 Hlen) as [p11 E11]; [lia|].
  destruct (lookup_of_length pose 33 12 Hlen) as [p12 E12]; [lia|].
  destruct (lookup_of_length pose 33 19 Hlen) as [p19 E19]; [lia|].
  destruct (lookup_of_length pose 33 20 Hlen) as [p20 E20]; [lia|].
  destruct (lookup_of_length pose 33 25 Hlen) as [p25 E25]; [lia|].
  destruct (lookup_of_length pose 33 26 Hlen) as [p26 E26]; [lia|].
  destruct (lookup_of_length pose 33 31 Hlen) as [p31 E31]; [lia|].
  destruct (lookup_of_length pose 33 32 Hlen) as [p32 E32]; [lia|].
  unfold extractFeaturesV3.
  rewrite E0, E11, E12, E19, E20, E25, E26, E31, E32. cbn [mbind option_bind].
  eexists. split; reflexivity.
Qed.

(** [process] on a frame of 33 landmarks or more, with what it leaves
    in the bank. *)
Lemma process_step (e : NormalizationEngine.t) (landmarks : list Pt.t)
    (timestamp : option R) :
  (33 <= length landmarks)%nat -> (33 <= length (filters e))%nat ->
  exists features fs',
    process (Some landmarks) timestamp e =
      Some (Some features, mk (minCutoff e) (beta e) (dCutoff e) fs') /\
    length features = 24%nat /\
    length fs' = length (filters e) /\
    (forall k pt a, landmarks !! k = Some pt -> (k < 33)%nat ->
       filters e !! k = Some a ->
       fs' !! k = Some (Props.stepAxes a pt timestamp)) /\
    (forall j, (33 <= j)%nat -> fs' !! j = filters e !! j).
Proof.
  intros Hlen Hfs.
  destruct (applyFilter_spec e landmarks timestamp Hfs)
    as (out & fs' & E & Hlo & Hl & _ & Hsm & Hkeep).
  destruct (calculateCOG_defined out) as [cog Ecog]; [lia|].
  destruct (normalizePose_defined out cog) as (np & nc & En & Hln); [lia|].
  destruct (extractFeaturesV3_defined np nc) as (features & Ef & Hlf); [lia|].
  exists features, fs'. split.
  - unfold process.
    destruct (length landmarks <? 33)%nat eqn:Hlt;
      [apply Nat.ltb_lt in Hlt; lia|].
    rewrite E. cbn [mbind option_bind]. rewrite Ecog. cbn [mbind option_bind].
    rewrite En. cbn [mbind option_bind]. rewrite Ef. reflexivity.
  - split; [exact Hlf|]. split; [exact Hl|]. split.
    + intros k pt a Hk Hlt Ha. apply (Hsm k pt a Hk Hlt Ha).
    + intros j Hj. apply Hkeep. right. exact Hj.
Qed.

(** X10: on an engine with its 33 filter entries every frame of 33
    landmarks or more is accepted: [process] returns a vector of exactly
    24 numbers, never [null] and never an exception, and the engine
    keeps its configuration and the size of its bank. *)
Theorem process_valid_frame (e : NormalizationEngine.t)
    (landmarks : list Pt.t) (timestamp : option R) :
  (33 <= length landmarks)%nat -> (33 <= length (filters e))%nat ->
  exists features e',
    process (Some landmarks) timestamp e = Some (Some features, e') /\
    length features = 24%nat /\
    length (filters e') = length (filters e) /\
    minCutoff e' = minCutoff e /\ beta e' = beta e /\ dCutoff e' = dCutoff e.
Proof.
  intros Hlen Hfs.
  destruct (process_step e landmarks timestamp Hlen Hfs)
    as (features & fs' & Ep & Hlf & Hl & _).
  exists features, (mk (minCutoff e) (beta e) (dCutoff e) fs').
  split; [exact Ep|]. split; [exact Hlf|]. cbn. repeat split. exact Hl.
Qed.

Lemma process_valid_frame_witness :
  exists features e',
    process (Some Samples.upright) (Some 0) NormalizationEngine.new
      = Some (Some features, e') /\
    length features = 24%nat /\
    length (filters e') = length (filters NormalizationEngine.new) /\
    minCutoff e' = minCutoff NormalizationEngine.new /\
    beta e' = beta NormalizationEngine.new /\
    dCutoff e' = dCutoff NormalizationEngine.new.
Proof.
  apply (process_valid_frame NormalizationEngine.new Samples.upright (Some 0)).
  - cbn. lia.
  - cbn. lia.
Defined.

End ProcessFrame.

(** ** More on mirroring *)

Section MirroringMore.
Import Recorder.

Lemma mirrorPose_lookups (pose0 : list Pt.t) :
  (33 <= length pose0)%nat ->
  exists mirrored,
    mirrorPose pose0 = Some mirrored /\
    length mirrored = length pose0 /\
    forall i, mirrored !! i = flipX <$> pose0 !! Props.partner i.
Proof.
  intros Hlen.
  do 33 (destruct pose0 as [|? pose0]; [cbn in Hlen; lia|]).
  rewrite mirrorPose_explicit. eexists. split; [reflexivity|].
  split; [cbn [length]; rewrite length_fmap; reflexivity|].
  intros i.
  do 33 (destruct i as [|i]; [reflexivity|]).
  unfold Props.partner, Nat.ltb. cbn [Nat.leb].
  cbn [lookup list_lookup]. apply list_lookup_fmap.
Qed.

(** X11: [mirrorPose] keeps the number of landmarks of a pose of 33
    landmarks or more, and the landmark at each index of the result is
    the landmark of the partner index (left for right from index 11 to
    32, the index itself elsewhere) with its x coordinate negated and
    everything else as it was. *)
Theorem mirrorPose_by_index (pose0 : list Pt.t) :
  (33 <= length pose0)%nat ->
  exists mirrored,
    mirrorPose pose0 = Some mirrored /\
    length mirrored = length pose0 /\
    forall i pt, pose0 !! Props.partner i = Some pt ->
      mirrored !! i =
        Some (Pt.mk (- Pt.x pt) (Pt.y pt) (Pt.z pt)
                    (Pt.visibility pt) (Pt.v pt)).
Proof.
  intros Hlen.
  destruct (mirrorPose_lookups pose0 Hlen) as (mirrored & E & Hl & Hat).
  exists mirrored. split; [exact E|]. split; [exact Hl|].
  intros i pt Hpt. rewrite Hat, Hpt. cbn [fmap option_fmap option_map].
  unfold flipX. do 2 f_equal. ring.
Qed.

Lemma mirrorPose_by_index_witness :
  exists mirrored,
    mirrorPose (Samples.handAt 0.3) = Some mirrored /\
    length mirrored = 33%nat /\
    mirrored !! 19%nat = Some (Pt.mk (Ropp 0.3) 0 0 None None).
Proof.
  destruct (mirrorPose_by_index (Samples.handAt 0.3))
    as (mirrored & E & Hl & Hat).
  - cbn. lia.
  - exists mirrored. split; [exact E|]. split; [exact Hl|].
    apply (Hat 19%nat (Pt.xyz 0.3 0 0)). reflexivity.
Defined.

(** X12: mirroring exchanges the roles of left and right in the
    detection of the active limb: the distance from the hip centre of a
    landmark of the mirrored pose is the distance of its partner in the
    original pose. *)
Theorem mirrorPose_extension (pose0 : list Pt.t) (t : R) :
  (33 <= length pose0)%nat ->
  exists mirrored,
    mirrorPose pose0 = Some mirrored /\
    forall id,
      extension (mkFrame t mirrored) id =
      extension (mkFrame t pose0) (Props.partner id).
Proof.
  intros Hlen.
  destruct (mirrorPose_lookups pose0 Hlen) as (mirrored & E & _ & Hat).
  exists mirrored. split; [exact E|]. intros id.
  destruct (lookup_lt_is_Some_2 pose0 23) as [p23 E23]; [lia|].
  destruct (lookup_lt_is_Some_2 pose0 24) as [p24 E24]; [lia|].
  unfold extension. cbn [pose].
  rewrite (Hat 23%nat), (Hat 24%nat), (Hat id).
  change (Props.partner 23) with 24%nat.
  change (Props.partner 24) with 23%nat.
  rewrite E23, E24. cbn [fmap option_fmap option_map mbind option_bind].
  destruct (pose0 !! Props.partner id) as [limb|]; [|reflexivity].
  cbn [fmap option_fmap option_map mbind option_bind].
  do 2 f_equal. unfold flipX, getMidPoint.
  cbn [Pt.xyz Pt.x Pt.y Pt.z]. field.
Qed.

(** The hand of the sample pose is the right one before and the left
    one after mirroring. *)
Lemma mirrorPose_extension_witness :
  exists mirrored,
    mirrorPose (Samples.handAt 0.3) = Some mirrored /\
    extension (mkFrame 0 mirrored) 19 = Some (Rabs 0.3).
Proof.
  destruct (mirrorPose_extension (Samples.handAt 0.3) 0)
    as (mirrored & E & Hat).
  - cbn. lia.
  - exists mirrored. split; [exact E|].
    rewrite (Hat 19%nat). change (Props.partner 19) with 20%nat.
    exact (proj1 (extension_handAt 0 0.3)).
Defined.

End MirroringMore.

(** ** More on the metrics *)

Section MetricsMore.
Import Recorder.






Lemma round2_bounds (v : R) : 0 <= v < 25 -> 0 <= Spec.round2 v <= 25.
Proof.
  intros [H0 H25]. unfold Spec.round2.
  pose proof (Zfloor_bound (v * 100 + 1 / 2)) as [Hlo Hhi].
  assert (0 <= Zfloor (v * 100 + 1 / 2))%Z as Hz0
    by (apply Zfloor_lub; lra).
  assert (Zfloor (v * 100 + 1 / 2) < 2501)%Z as Hz1
    by (apply lt_IZR; lra).
  assert (Zfloor (v * 100 + 1 / 2) <= 2500)%Z as Hz2 by lia.
  apply IZR_le in Hz0. apply IZR_le in Hz2. lra.
Qed.

(** X14: on every valid window of five frames or more both reported
    speeds lie between 0 and 25; the outbound speed is 0 when the apex
    is the first frame and the return speed is 0 when the apex is the
    last frame. *)
Theorem calculateMetrics_speed_bounds (history : list Frame) (heightCm : R) :
  (5 <= length history)%nat -> Spec.validWindow history ->
  exists m,
    calculateMetrics history heightCm = Some (MetricsObject m) /\
    0 <= max_speed_outbound m <= 25 /\
    0 <= max_speed_return m <= 25 /\
    (apex_frame m = 0%nat -> max_speed_outbound m = 0) /\
    (apex_frame m = (length history - 1)%nat -> max_speed_return m = 0).
Proof.
  intros Hlen Hvalid.
  destruct (detectActivePart_defined history) as (a & Ea & Hpart & Hapex);
    [lia|exact Hvalid|].
  destruct (calculateMetrics_runs history heightCm a Hlen Hvalid Ea Hpart Hapex)
    as (first & last & _ & _ & Em).
  eexists. split; [exact Em|].
  cbn [max_speed_outbound max_speed_return apex_frame].
  assert (forall s e,
            0 <= Spec.maxOf (Spec.phaseSamples history (activePartId a)
                               heightCm s e) < 25) as Hmax.
  { intros s e. split; [apply maxOf_nonneg|].
    apply maxOf_below; [lra|]. apply phaseSamples_below. }
  split; [apply round2_bounds, Hmax|]. split; [apply round2_bounds, Hmax|].
  split.
  - intros ->. unfold Spec.phaseSamples. cbn. apply round2_0.
  - intros ->. unfold Spec.phaseSamples. rewrite Nat.sub_diag. cbn.
    apply round2_0.
Qed.

Lemma calculateMetrics_speed_bounds_witness :
  exists m,
    calculateMetrics Samples.still 175 = Some (MetricsObject m) /\
    0 <= max_speed_outbound m <= 25 /\
    0 <= max_speed_return m <= 25 /\
    (apex_frame m = 0%nat -> max_speed_outbound m = 0) /\
    (apex_frame m = (length Samples.still - 1)%nat -> max_speed_return m = 0).
Proof.
  apply (calculateMetrics_speed_bounds Samples.still 175).
  - cbn. lia.
  - exact still_valid.
Defined.





End MetricsMore.

(** ** More on resampling *)

Section ResamplingMore.
Import Recorder.

(** On an input of two vectors or more of one shape and a target length
    other than 1, [resampleTimeSeries] returns the frames the body of
    its loop computes. *)
Lemma resampleTimeSeries_runs (data : list (list R)) (targetLen : nat) :
  Spec.rectangular data -> (2 <= length data)%nat -> targetLen <> 1%nat ->
  exists out,
    resampleTimeSeries data targetLen = Some out /\
    length out = targetLen /\
    forall i, (i < targetLen)%nat ->
      exists frame,
        out !! i = Some frame /\
        resampleAt data ((INR (length data) - 1) / (INR targetLen - 1)) i
          = Some frame /\
        Spec.interpolated data targetLen i = Some frame.
Proof.
  intros Hrect Hlen HN.
  assert (resampleTimeSeries data targetLen =
          mapM (resampleAt data ((INR (length data) - 1) / (INR targetLen - 1)))
               (seq 0 targetLen)) as Eres.
  { destruct data as [|d [|d' rest]]; [cbn in Hlen; lia..|].
    unfold resampleTimeSeries.
    destruct (targetLen =? 1)%nat eqn:E; [apply Nat.eqb_eq in E; lia|].
    reflexivity. }
  assert (forall i, (i < targetLen)%nat ->
            exists frame,
              resampleAt data ((INR (length data) - 1) / (INR targetLen - 1)) i
                = Some frame /\
              Spec.interpolated data targetLen i = Some frame) as Hat.
  { intros i Hi. apply resampleAt_interpolated; [assumption|lia..]. }
  destruct (mapM_is_Some_2
              (resampleAt data ((INR (length data) - 1) / (INR targetLen - 1)))
              (seq 0 targetLen)) as [out Eout].
  { apply Forall_forall. intros i Hi. apply elem_of_seq in Hi.
    destruct (Hat i) as (frame & E & _); [lia|].
    unfold compose. rewrite E. eauto. }
  pose proof (mapM_Some_1 _ _ _ Eout) as Hall.
  pose proof (Forall2_length _ _ _ Hall) as Hl. rewrite length_seq in Hl.
  exists out. rewrite Eres. split; [exact Eout|]. split; [congruence|].
  intros i Hi.
  destruct (Forall2_lookup_l _ _ _ i i Hall) as (frame & Ef & Er).
  { apply lookup_seq. lia. }
  destruct (Hat i Hi) as (frame' & E & Espec).
  exists frame. split; [exact Ef|]. split; [exact Er|]. congruence.
Qed.




Lemma interpolated_shape (data : list (list R)) (targetLen i n : nat)
    (frame : list R) :
  (forall v, v ∈ data -> length v = n) ->
  Spec.interpolated data targetLen i = Some frame -> length frame = n.
Proof.
  intros Hn. unfold Spec.interpolated. cbv zeta.
  set (lo := Z.to_nat (Zfloor _)). set (hi := Z.to_nat (Z.min _ _)).
  destruct (data !! lo) as [low|] eqn:Elow;
    cbn [mbind option_bind]; [|discriminate].
  destruct (data !! hi) as [high|] eqn:Ehigh;
    cbn [mbind option_bind]; [|discriminate].
  intros [= <-]. unfold Spec.lerp. rewrite length_zip_with.
  rewrite (Hn low), (Hn high) by (apply list_elem_of_lookup; eauto). lia.
Qed.

Lemma resampleTimeSeries_shaped (data : list (list R)) (targetLen n : nat) :
  (forall v, v ∈ data -> length v = n) ->
  (targetLen <> 1%nat \/ (length data <= 1)%nat) ->
  exists out,
    resampleTimeSeries data targetLen = Some out /\
    (forall v, v ∈ out -> length v = n) /\
    (data <> [] -> length out = targetLen) /\
    (data = [] -> out = []).
Proof.
  intros Hn HN.
  destruct data as [|d [|d' rest]].
  - exists []. split; [reflexivity|].
    split; [intros v Hv; inversion Hv|]. split; [congruence|reflexivity].
  - exists (replicate targetLen d). split; [reflexivity|]. split.
    + intros v [-> _]%elem_of_replicate. apply Hn. left.
    + split; [intros _; apply length_replicate|discriminate].
  - set (data := d :: d' :: rest) in *.
    destruct (resampleTimeSeries_runs data targetLen) as (out & E & Hl & Hat).
    + intros a b Ha Hb. rewrite (Hn a Ha), (Hn b Hb). reflexivity.
    + cbn. lia.
    + destruct HN as [HN|HN]; [exact HN|cbn in HN; lia].
    + exists out. split; [exact E|]. split.
      * intros v Hv. apply list_elem_of_lookup in Hv as [i Hi].
        destruct (Hat i) as (frame & Ef & _ & Espec);
          [apply lookup_lt_Some in Hi; lia|].
        rewrite Hi in Ef. injection Ef as <-.
        exact (interpolated_shape data targetLen i n v Hn Espec).
      * split; [intros _; exact Hl|discriminate].
Qed.

(** X18: resampling keeps the shape of the vectors: for a non-empty
    input of vectors of [n] numbers (and a target length other than 1
    when there are two or more of them) the result has [targetLen]
    vectors of [n] numbers each. *)
Theorem resampleTimeSeries_shape (data : list (list R)) (targetLen n : nat) :
  data <> [] -> (forall v, v ∈ data -> length v = n) ->
  (targetLen <> 1%nat \/ (length data <= 1)%nat) ->
  exists out,
    resampleTimeSeries data targetLen = Some out /\
    length out = targetLen /\
    forall v, v ∈ out -> length v = n.
Proof.
  intros Hne Hn HN.
  destruct (resampleTimeSeries_shaped data targetLen n Hn HN)
    as (out & E & Hshape & Hlen & _).
  exists out. split; [exact E|]. split; [apply Hlen; exact Hne|].
  exact Hshape.
Qed.

Lemma resampleTimeSeries_shape_witness :
  exists out,
    resampleTimeSeries Samples.ramp 100 = Some out /\
    length out = 100%nat /\
    forall v, v ∈ out -> length v = 2%nat.
Proof.
  apply (resampleTimeSeries_shape Samples.ramp 100 2).
  - discriminate.
  - intros v Hv. unfold Samples.ramp in Hv.
    rewrite !elem_of_cons, elem_of_nil in Hv.
    destruct Hv as [->|[->|[->|[]]]]; reflexivity.
  - left. lia.
Defined.

(** X19: resampling a non-empty sequence of copies of one vector (to a
    target length other than 1 when there are two or more of them)
    gives [targetLen] copies of that vector. *)
Theorem resampleTimeSeries_constant (data : list (list R)) (targetLen : nat)
    (v : list R) :
  data <> [] -> (forall u, u ∈ data -> u = v) ->
  (targetLen <> 1%nat \/ (length data <= 1)%nat) ->
  resampleTimeSeries data targetLen = Some (replicate targetLen v).
Proof.
  intros Hne Hall HN.
  destruct data as [|d [|d' rest]]; [congruence| |].
  - rewrite (Hall d) by left. reflexivity.
  - set (data := d :: d' :: rest) in *.
    destruct (resampleTimeSeries_runs data targetLen) as (out & E & Hl & Hat).
    + intros a b Ha Hb. rewrite (Hall a Ha), (Hall b Hb). reflexivity.
    + cbn. lia.
    + destruct HN as [HN|HN]; [exact HN|cbn in HN; lia].
    + rewrite E. f_equal. symmetry. apply replicate_as_Forall.
      split; [exact Hl|]. apply Forall_forall. intros u Hu.
      apply list_elem_of_lookup in Hu as [i Hi].
      destruct (Hat i) as (frame & Ef & _ & Espec);
        [apply lookup_lt_Some in Hi; lia|].
      rewrite Hi in Ef. injection Ef as <-.
      unfold Spec.interpolated in Espec. cbv zeta in Espec.
      set (lo := Z.to_nat (Zfloor _)) in Espec.
      set (hi := Z.to_nat (Z.min _ _)) in Espec.
      destruct (data !! lo) as [low|] eqn:Elow;
        cbn [mbind option_bind] in Espec; [|discriminate].
      destruct (data !! hi) as [high|] eqn:Ehigh;
        cbn [mbind option_bind] in Espec; [|discriminate].
      injection Espec as <-.
      rewrite (Hall low), (Hall high) by (apply list_elem_of_lookup; eauto).
      rewrite lerp_same. reflexivity.
Qed.

Lemma resampleTimeSeries_constant_witness :
  resampleTimeSeries [[1; 2]; [1; 2]; [1; 2]] 100 = Some (replicate 100 [1; 2]).
Proof.
  apply (resampleTimeSeries_constant [[1; 2]; [1; 2]; [1; 2]] 100 [1; 2]).
  - discriminate.
  - intros u Hu. rewrite !elem_of_cons, elem_of_nil in Hu.
    destruct Hu as [->|[->|[->|[]]]]; reflexivity.
  - left. lia.
Defined.



End ResamplingMore.

(** ** The fingerprint of a window *)

Section Fingerprint.
Import NormalizationEngine Recorder.

Lemma process_short (e : NormalizationEngine.t) (landmarks : list Pt.t)
    (timestamp : option R) :
  (length landmarks < 33)%nat ->
  process (Some landmarks) timestamp e = Some (None, e).
Proof.
  intros Hlt. unfold process. apply Nat.ltb_lt in Hlt. rewrite Hlt.
  reflexivity.
Qed.

(** The loop of [generateV3Data] never fails on an engine with its 33
    filter entries: it collects one vector of 24 numbers per frame of 33
    landmarks or more. *)
Lemma generateFrom_runs (history : list Frame) :
  forall i processed e,
    (33 <= length (filters e))%nat ->
    (forall v, v ∈ processed -> length v = 24%nat) ->
    exists out e',
      generateFrom i history processed e = Some (out, e') /\
      (forall v, v ∈ out -> length v = 24%nat) /\
      length (filters e') = length (filters e) /\
      (length processed <= length out)%nat /\
      ((exists frame, frame ∈ history /\ (33 <= length (pose frame))%nat) ->
       (1 <= length out)%nat).
Proof.
  induction history as [|frame rest IH]; intros i processed e Hfs Hshape.
  - exists processed, e. split; [reflexivity|]. split; [exact Hshape|].
    split; [reflexivity|]. split; [lia|].
    intros (frame & Hin & _). inversion Hin.
  - cbn [generateFrom].
    destruct (Nat.lt_ge_cases (length (pose frame)) 33) as [Hshort|Hlong].
    + rewrite process_short by exact Hshort.
      destruct (IH (S i) processed e Hfs Hshape)
        as (out & e' & E & Hout & Hl & Hle & Hsome).
      exists out, e'. split; [exact E|]. split; [exact Hout|].
      split; [exact Hl|]. split; [exact Hle|].
      intros (f & [->|Hin]%elem_of_cons & Hf); [lia|].
      apply Hsome. exists f. split; assumption.
    + destruct (process_step e (pose frame) (Some (INR i * (1 / 30)))
                  Hlong Hfs) as (features & fs' & Ep & Hlf & Hl' & _).
      rewrite Ep.
      destruct (IH (S i) (processed ++ [features])
                  (mk (minCutoff e) (beta e) (dCutoff e) fs'))
        as (out & e' & E & Hout & Hl & Hle & _).
      { cbn [filters]. lia. }
      { intros v [Hv|Hv]%elem_of_app; [apply Hshape; exact Hv|].
        apply list_elem_of_singleton in Hv as ->. exact Hlf. }
      exists out, e'. split; [exact E|]. split; [exact Hout|].
      split; [rewrite Hl; cbn [filters]; exact Hl'|].
      rewrite length_app in Hle. cbn [length] in Hle.
      split; [lia|]. intros _. lia.
Qed.

(** The two stages of [generateV3Data]. *)
Lemma generateV3Data_shape_aux (history : list Frame)
    (e : NormalizationEngine.t) :
  (33 <= length (filters e))%nat ->
  exists processed e' out,
    generateFrom 0 history [] e = Some (processed, e') /\
    resampleTimeSeries processed 100 = Some out.
Proof.
  intros Hfs.
  destruct (generateFrom_runs history 0 [] e Hfs)
    as (processed & e' & E & Hshape & _).
  { intros v Hv. inversion Hv. }
  destruct (resampleTimeSeries_shaped processed 100 24 Hshape)
    as (out & Er & _); [left; lia|].
  exists processed, e', out. split; assumption.
Qed.

(** X20: on an engine with its 33 filter entries [generateV3Data] never
    fails, whatever the frames are; every vector of its result has 24
    numbers, and the result has exactly 100 vectors as soon as one frame
    of the window has 33 landmarks or more. *)
Theorem generateV3Data_shape (history : list Frame)
    (e : NormalizationEngine.t) :
  (33 <= length (filters e))%nat ->
  exists out e',
    generateV3Data history e = Some (out, e') /\
    (forall v, v ∈ out -> length v = 24%nat) /\
    ((exists frame, frame ∈ history /\ (33 <= length (pose frame))%nat) ->
     length out = 100%nat) /\
    length (filters e') = length (filters e).
Proof.
  intros Hfs.
  destruct (generateFrom_runs history 0 [] e Hfs)
    as (processed & e' & E & Hshape & Hl & _ & Hsome).
  { intros v Hv. inversion Hv. }
  destruct (resampleTimeSeries_shaped processed 100 24 Hshape)
    as (out & Er & Hout & Hlen & _); [left; lia|].
  exists out, e'. unfold generateV3Data. rewrite E, Er.
  split; [reflexivity|]. split; [exact Hout|]. split; [|exact Hl].
  intros Hframe. apply Hlen. specialize (Hsome Hframe).
  intros ->. cbn in Hsome. lia.
Qed.

(** The jab sample on a fresh engine. *)
Lemma generateV3Data_shape_witness :
  exists out e',
    generateV3Data Samples.jab NormalizationEngine.new = Some (out, e') /\
    (forall v, v ∈ out -> length v = 24%nat) /\
    ((exists frame, frame ∈ Samples.jab /\ (33 <= length (pose frame))%nat) ->
     length out = 100%nat) /\
    length (filters e') = length (filters NormalizationEngine.new).
Proof.
  apply (generateV3Data_shape Samples.jab NormalizationEngine.new).
  cbn. lia.
Defined.

Lemma generateFrom_all_short (history : list Frame) :
  (forall frame, frame ∈ history -> (length (pose frame) < 33)%nat) ->
  forall i processed e,
    generateFrom i history processed e = Some (processed, e).
Proof.
  induction history as [|frame rest IH]; intros Hshort i processed e;
    [reflexivity|].
  cbn [generateFrom]. rewrite process_short by (apply Hshort; left).
  apply IH. intros f Hf. apply Hshort. right. exact Hf.
Qed.

(** X21: a window in which no frame has 33 landmarks gives the empty
    fingerprint and leaves the engine as it was. *)
Theorem generateV3Data_all_rejected (history : list Frame)
    (e : NormalizationEngine.t) :
  (forall frame, frame ∈ history -> (length (pose frame) < 33)%nat) ->
  generateV3Data history e = Some ([], e).
Proof.
  intros Hshort. unfold generateV3Data.
  rewrite generateFrom_all_short by exact Hshort. reflexivity.
Qed.

Lemma generateV3Data_all_rejected_witness :
  generateV3Data [mkFrame 0 []; mkFrame 33 (replicate 32 (Pt.xyz 1 2 3))]
                 NormalizationEngine.new
  = Some ([], NormalizationEngine.new).
Proof.
  apply (generateV3Data_all_rejected
           [mkFrame 0 []; mkFrame 33 (replicate 32 (Pt.xyz 1 2 3))]
           NormalizationEngine.new).
  intros frame Hin. rewrite !elem_of_cons, elem_of_nil in Hin.
  destruct Hin as [->|[->|[]]]; cbn; lia.
Defined.

(** What a frame of 33 landmarks or more does to a property of the
    filters of the bank. *)
Lemma bank_step (P Q : OneEuroFilter.t -> Prop)
    (e : NormalizationEngine.t) (landmarks : list Pt.t)
    (timestamp : option R) :
  (33 <= length landmarks)%nat -> (33 <= length (filters e))%nat ->
  (forall f value, P f -> Q (snd (OneEuroFilter.filter f value timestamp))) ->
  (forall j a, (33 <= j)%nat -> filters e !! j = Some a ->
     P (x a) /\ P (y a) /\ P (z a) -> Q (x a) /\ Q (y a) /\ Q (z a)) ->
  Props.allFilters P e ->
  exists features e',
    process (Some landmarks) timestamp e = Some (Some features, e') /\
    length (filters e') = length (filters e) /\
    Props.allFilters Q e'.
Proof.
  intros Hlen Hfs Hstep Hkeep HP.
  destruct (process_step e landmarks timestamp Hlen Hfs)
    as (features & fs' & Ep & _ & Hl & Hsm & Hrest).
  exists features, (mk (minCutoff e) (beta e) (dCutoff e) fs').
  split; [exact Ep|]. split; [exact Hl|].
  intros a' Ha'. cbn [filters] in Ha'.
  apply list_elem_of_lookup in Ha' as [j Hj].
  destruct (Nat.lt_ge_cases j 33) as [Hlt|Hge].
  - destruct (lookup_lt_is_Some_2 landmarks j) as [pt Ept]; [lia|].
    destruct (lookup_lt_is_Some_2 (filters e) j) as [a Ea]; [lia|].
    rewrite (Hsm j pt a Ept Hlt Ea) in Hj. injection Hj as <-.
    destruct (HP a) as (Px & Py & Pz); [apply list_elem_of_lookup; eauto|].
    unfold Props.stepAxes. cbn [x y z].
    (split; [|split]); apply Hstep; assumption.
  - rewrite Hrest in Hj by exact Hge.
    apply (Hkeep j a' Hge Hj). apply HP. apply list_elem_of_lookup. eauto.
Qed.

Lemma filter_ready (T t T' : R) (f : OneEuroFilter.t) (value : R) :
  Props.readyBefore T f -> T <= t -> t < T' ->
  Props.readyBefore T' (snd (OneEuroFilter.filter f value (Some t))).
Proof.
  intros [Hfreq Hlast] Ht Ht'. split.
  - rewrite filter_freq. apply updateFreq_positive; [exact Hfreq|].
    destruct (OneEuroFilter.lastTime f) as [t0|] eqn:E; [|exact I].
    specialize (Hlast t0 eq_refl). lra.
  - intros t1. rewrite filter_lastTime. intros [= <-]. exact Ht'.
Qed.

Lemma ready_later (T T' : R) (f : OneEuroFilter.t) :
  Props.readyBefore T f -> T <= T' -> Props.readyBefore T' f.
Proof.
  intros [Hfreq Hlast] HT. split; [exact Hfreq|].
  intros t Ht. specialize (Hlast t Ht). lra.
Qed.

Lemma frame_times_increase (i : nat) : INR i * (1 / 30) < INR (S i) * (1 / 30).
Proof. rewrite S_INR. lra. Qed.

(** The loop keeps every filter ready for the next frame. *)
Lemma generateFrom_ready (history : list Frame) :
  forall i processed e out e',
    (33 <= length (filters e))%nat ->
    Props.allFilters (Props.readyBefore (INR i * (1 / 30))) e ->
    generateFrom i history processed e = Some (out, e') ->
    Props.allFilters
      (Props.readyBefore (INR (i + length history) * (1 / 30))) e'.
Proof.
  induction history as [|frame rest IH];
    intros i processed e out e' Hfs Hready Hrun.
  - cbn in Hrun. injection Hrun as _ <-. rewrite Nat.add_0_r. exact Hready.
  - cbn [generateFrom] in Hrun. cbn [length].
    replace (i + S (length rest))%nat with (S i + length rest)%nat by lia.
    pose proof (frame_times_increase i) as Hinc.
    destruct (Nat.lt_ge_cases (length (pose frame)) 33) as [Hshort|Hlong].
    + rewrite process_short in Hrun by exact Hshort.
      apply (IH (S i) processed e out e' Hfs); [|exact Hrun].
      intros a Ha. destruct (Hready a Ha) as (Hx & Hy & Hz).
      (split; [|split]); eapply ready_later; try eassumption; lra.
    + destruct (bank_step (Props.readyBefore (INR i * (1 / 30)))
                  (Props.readyBefore (INR (S i) * (1 / 30)))
                  e (pose frame) (Some (INR i * (1 / 30))) Hlong Hfs)
        as (features & e1 & Ep & Hl & Hready1).
      * intros f value Hf. apply (filter_ready (INR i * (1 / 30))); [exact Hf|lra|exact Hinc].
      * intros j a _ _ (Hx & Hy & Hz).
        (split; [|split]); eapply ready_later; try eassumption; lra.
      * exact Hready.
      * rewrite Ep in Hrun.
        apply (IH (S i) (processed ++ [features]) e1 out e');
          [lia|exact Hready1|exact Hrun].
Qed.

(** X22: within one run the caller keeps the contract of the filters:
    started on an engine whose filters have a positive frequency and no
    time stamp from 0 on (a fresh engine, for one), [generateV3Data]
    ends with a positive frequency estimate in every filter. *)
Theorem generateV3Data_frequencies (history : list Frame)
    (e : NormalizationEngine.t) :
  (33 <= length (filters e))%nat ->
  Props.allFilters (Props.readyBefore 0) e ->
  exists out e',
    generateV3Data history e = Some (out, e') /\
    Props.allFilters (fun f => 0 < OneEuroFilter.freq f) e'.
Proof.
  intros Hfs Hready.
  destruct (generateV3Data_shape_aux history e Hfs)
    as (processed & e' & out & E & Er).
  exists out, e'. unfold generateV3Data. rewrite E, Er.
  split; [reflexivity|].
  assert (Props.allFilters
            (Props.readyBefore (INR (0 + length history) * (1 / 30))) e')
    as Hend.
  { apply (generateFrom_ready history 0 [] e processed e' Hfs); [|exact E].
    intros a Ha. destruct (Hready a Ha) as (Hx & Hy & Hz).
    (split; [|split]); eapply ready_later; try eassumption; cbn; lra. }
  intros a Ha. destruct (Hend a Ha) as ([Hx _] & [Hy _] & [Hz _]).
  split; [|split]; assumption.
Qed.

Lemma fresh_engine_ready :
  Props.allFilters (Props.readyBefore 0) NormalizationEngine.new.
Proof.
  intros a Ha. unfold NormalizationEngine.new in Ha. cbn [filters] in Ha.
  apply elem_of_replicate in Ha as [-> _]. cbn [x y z].
  assert (Props.readyBefore 0 (OneEuroFilter.new 30 1 0 1)) as H.
  { split; [cbn; lra|]. intros t Ht. discriminate. }
  split; [|split]; exact H.
Qed.

(** The jab sample on a fresh engine. *)
Lemma generateV3Data_frequencies_witness :
  exists out e',
    generateV3Data Samples.jab NormalizationEngine.new = Some (out, e') /\
    Props.allFilters (fun f => 0 < OneEuroFilter.freq f) e'.
Proof.
  apply (generateV3Data_frequencies Samples.jab NormalizationEngine.new).
  - cbn. lia.
  - exact fresh_engine_ready.
Defined.

(** After a run over a valid, non-empty window every filter of a bank of
    33 entries holds the time stamp of the last frame. *)
Lemma generateFrom_last_time (history : list Frame) :
  forall i processed e out e',
    history <> [] -> Spec.validWindow history ->
    length (filters e) = 33%nat ->
    generateFrom i history processed e = Some (out, e') ->
    length (filters e') = 33%nat /\
    Props.allFilters
      (fun f => OneEuroFilter.lastTime f =
                Some (INR (i + length history - 1) * (1 / 30))) e'.
Proof.
  induction history as [|frame rest IH];
    intros i processed e out e' Hne Hvalid Hfs Hrun; [congruence|].
  cbn [generateFrom] in Hrun.
  assert (33 <= length (pose frame))%nat as Hlong by (apply Hvalid; left).
  destruct (bank_step (fun _ => True)
              (fun f => OneEuroFilter.lastTime f = Some (INR i * (1 / 30)))
              e (pose frame) (Some (INR i * (1 / 30))) Hlong)
    as (features & e1 & Ep & Hl & Hlast).
  - lia.
  - intros f value _. apply filter_lastTime.
  - intros j a Hj Ha _. apply lookup_lt_Some in Ha. lia.
  - intros a _. tauto.
  - rewrite Ep in Hrun. destruct rest as [|frame' rest'].
    + cbn in Hrun. injection Hrun as _ <-. split; [lia|].
      cbn [length]. replace (i + 1 - 1)%nat with i by lia. exact Hlast.
    + destruct (IH (S i) (processed ++ [features]) e1 out e') as [Hl' Hlast'].
      * discriminate.
      * intros f Hf. apply Hvalid. right. exact Hf.
      * lia.
      * exact Hrun.
      * split; [exact Hl'|].
        replace (i + length (frame :: frame' :: rest') - 1)%nat
          with (S i + length (frame' :: rest') - 1)%nat by (cbn; lia).
        exact Hlast'.
Qed.

(** X23: the engine is never reset, and the time stamps of a run start
    again at 0: after a run over a valid window of two frames or more on
    a bank of 33 entries, the call [process] gets for frame 0 of the
    next run leaves a negative frequency estimate in every filter. *)
Theorem generateV3Data_next_run (history : list Frame) (frame : Frame)
    (e : NormalizationEngine.t) :
  length (filters e) = 33%nat ->
  Spec.validWindow history -> (2 <= length history)%nat ->
  (33 <= length (pose frame))%nat ->
  exists out e1 features e2,
    generateV3Data history e = Some (out, e1) /\
    process (Some (pose frame)) (Some (INR 0 * (1 / 30))) e1
      = Some (Some features, e2) /\
    Props.allFilters (fun f => OneEuroFilter.freq f < 0) e2.
Proof.
  intros Hfs Hvalid Hlen Hlong.
  destruct (generateV3Data_shape_aux history e) as (processed & e1 & out & E & Er);
    [lia|].
  destruct (generateFrom_last_time history 0 [] e processed e1)
    as [Hl1 Hlast]; [intros ->; cbn in Hlen; lia|exact Hvalid|exact Hfs|exact E|].
  set (t := INR (0 + length history - 1) * (1 / 30)) in *.
  assert (0 < t) as Ht.
  { unfold t. apply Rmult_lt_0_compat; [|lra].
    apply (lt_INR 0). lia. }
  destruct (bank_step
              (fun f => OneEuroFilter.lastTime f = Some t)
              (fun f => OneEuroFilter.freq f < 0)
              e1 (pose frame) (Some (INR 0 * (1 / 30))) Hlong)
    as (features & e2 & Ep & _ & Hneg).
  - lia.
  - intros f value Hf. rewrite filter_freq. unfold OneEuroFilter.updateFreq.
    rewrite Hf. cbn [INR]. rewrite Rmult_0_l.
    unfold Rdiv, Rminus. rewrite Rplus_0_l, Rmult_1_l.
    apply Rinv_lt_0_compat. lra.
  - intros j a Hj Ha _. apply lookup_lt_Some in Ha. lia.
  - exact Hlast.
  - exists out, e1, features, e2. unfold generateV3Data. rewrite E, Er.
    split; [reflexivity|]. split; [exact Ep|exact Hneg].
Qed.

(** The jab sample on a fresh engine, then its first frame again. *)
Lemma generateV3Data_next_run_witness :
  exists out e1 features e2,
    generateV3Data Samples.jab NormalizationEngine.new = Some (out, e1) /\
    process (Some (Samples.handAt 0)) (Some (INR 0 * (1 / 30))) e1
      = Some (Some features, e2) /\
    Props.allFilters (fun f => OneEuroFilter.freq f < 0) e2.
Proof.
  apply (generateV3Data_next_run Samples.jab (mkFrame 0 (Samples.handAt 0))
           NormalizationEngine.new).
  - reflexivity.
  - exact jab_valid.
  - cbn. lia.
  - cbn. lia.
Defined.

End Fingerprint.

(** ** The metrics and the place of the performer *)

Section MetricsShift.
Import Recorder.







(** X25: the height of the performer only enters the speeds: on a valid
    window of five frames or more two calls of [calculateMetrics] with
    different heights report the same active part, apex frame and
    duration. *)
Theorem calculateMetrics_height (history : list Frame) (h1 h2 : R) :
  (5 <= length history)%nat -> Spec.validWindow history ->
  exists m1 m2,
    calculateMetrics history h1 = Some (MetricsObject m1) /\
    calculateMetrics history h2 = Some (MetricsObject m2) /\
    active_part m1 = active_part m2 /\
    apex_frame m1 = apex_frame m2 /\
    duration_sec m1 = duration_sec m2.
Proof.
  intros Hlen Hvalid.
  destruct (detectActivePart_defined history) as (a & Ea & Hpart & Hapex);
    [lia|exact Hvalid|].
  destruct (calculateMetrics_runs history h1 a Hlen Hvalid Ea Hpart Hapex)
    as (first & last & E0 & El & Em1).
  destruct (calculateMetrics_runs history h2 a Hlen Hvalid Ea Hpart Hapex)
    as (first' & last' & E0' & El' & Em2).
  rewrite E0 in E0'. rewrite El in El'.
  injection E0' as <-. injection El' as <-.
  eexists _, _. split; [exact Em1|]. split; [exact Em2|].
  repeat split.
Qed.

Lemma calculateMetrics_height_witness :
  exists m1 m2,
    calculateMetrics Samples.jab 175 = Some (MetricsObject m1) /\
    calculateMetrics Samples.jab 160 = Some (MetricsObject m2) /\
    active_part m1 = active_part m2 /\
    apex_frame m1 = apex_frame m2 /\
    duration_sec m1 = duration_sec m2.
Proof.
  apply (calculateMetrics_height Samples.jab 175 160).
  - cbn. lia.
  - exact jab_valid.
Defined.

End MetricsShift.

(** ** The fingerprint and the place of the performer *)

Section FingerprintShift.
Import NormalizationEngine Recorder.








End FingerprintShift.

(** * The motion metrics in double precision *)

(** ** The order of the doubles *)

Section DoubleOrder.
Local Open Scope float_scope.

Local Ltac compare_cases :=
  repeat match goal with
  | H : context [Pos.compare_cont Eq ?p ?q] |- _ =>
    change (Pos.compare_cont Eq p q) with (Pos.compare p q) in H
  | |- context [Pos.compare_cont Eq ?p ?q] =>
    change (Pos.compare_cont Eq p q) with (Pos.compare p q)
  end;
  repeat match goal with
  | H : context [Z.compare ?a ?b] |- _ =>
    destruct (Z.compare_spec a b); cbn in H; try discriminate H
  | H : context [Pos.compare ?a ?b] |- _ =>
    destruct (Pos.compare_spec a b); cbn in H; try discriminate H
  | |- context [Z.compare ?a ?b] =>
    destruct (Z.compare_spec a b); cbn
  | |- context [Pos.compare ?a ?b] =>
    destruct (Pos.compare_spec a b); cbn
  end;
  subst; try reflexivity; try discriminate; try lia.

(** [SFcompare] orders the numbers: a chain of [Lt] and [Eq] composes. *)
Lemma SFcompare_chain (a b c : spec_float) (x y : comparison) :
  SFcompare a b = Some x -> SFcompare b c = Some y ->
  x <> Gt -> y <> Gt ->
  SFcompare a c = Some (match x, y with Eq, Eq => Eq | _, _ => Lt end).
Proof.
  intros Hab Hbc Hx Hy.
  destruct x; [| |congruence]; destruct y; [| |congruence| | |congruence];
    clear Hx Hy;
    destruct a as [[]|[]| |[] ma ea], b as [[]|[]| |[] mb eb],
             c as [[]|[]| |[] mc ec];
    cbn in Hab, Hbc |- *; try discriminate; try reflexivity;
    compare_cases.
Qed.

Lemma SFcompare_swap (a b : spec_float) :
  SFcompare b a = option_map CompOpp (SFcompare a b).
Proof.
  destruct a as [[]|[]| |[] ma ea], b as [[]|[]| |[] mb eb];
    cbn; try reflexivity; compare_cases.
Qed.

Lemma SFcompare_defined (a b : spec_float) :
  a <> S754_nan -> b <> S754_nan -> exists x, SFcompare a b = Some x.
Proof.
  intros Ha Hb.
  destruct a as [[]|[]| |[] ma ea], b as [[]|[]| |[] mb eb];
    try congruence; cbn; eauto.
Qed.

Lemma SFltb_not_nan (a b : spec_float) :
  SFltb a b = true -> a <> S754_nan /\ b <> S754_nan.
Proof.
  unfold SFltb. destruct a, b; cbn; try discriminate; split; discriminate.
Qed.

Lemma ltb_asym (a b : float) : (a <? b) = true -> (b <? a) = false.
Proof.
  rewrite !ltb_spec. unfold SFltb. rewrite (SFcompare_swap (Prim2SF a)).
  destruct (SFcompare (Prim2SF a) (Prim2SF b)) as [[]|]; cbn; congruence.
Qed.

Lemma ltb_trans (a b c : float) :
  (a <? b) = true -> (b <? c) = true -> (a <? c) = true.
Proof.
  rewrite !ltb_spec. unfold SFltb.
  destruct (SFcompare (Prim2SF a) (Prim2SF b)) as [[]|] eqn:Eab;
    try discriminate.
  destruct (SFcompare (Prim2SF b) (Prim2SF c)) as [[]|] eqn:Ebc;
    try discriminate.
  rewrite (SFcompare_chain _ _ _ _ _ Eab Ebc); [reflexivity|discriminate..].
Qed.

Lemma leb_trans (a b c : float) :
  (a <=? b) = true -> (b <=? c) = true -> (a <=? c) = true.
Proof.
  rewrite !leb_spec. unfold SFleb.
  destruct (SFcompare (Prim2SF a) (Prim2SF b)) as [[]|] eqn:Eab;
    try discriminate;
    destruct (SFcompare (Prim2SF b) (Prim2SF c)) as [[]|] eqn:Ebc;
    try discriminate;
    rewrite (SFcompare_chain _ _ _ _ _ Eab Ebc); try discriminate;
    reflexivity.
Qed.

Lemma ltb_leb_trans (a b c : float) :
  (a <? b) = true -> (b <=? c) = true -> (a <? c) = true.
Proof.
  rewrite !ltb_spec, leb_spec. unfold SFltb, SFleb.
  destruct (SFcompare (Prim2SF a) (Prim2SF b)) as [[]|] eqn:Eab;
    try discriminate.
  destruct (SFcompare (Prim2SF b) (Prim2SF c)) as [[]|] eqn:Ebc;
    try discriminate;
    rewrite (SFcompare_chain _ _ _ _ _ Eab Ebc); try discriminate;
    reflexivity.
Qed.

Lemma ltb_irrefl (a : float) : (a <? a) = false.
Proof.
  destruct (a <? a) eqn:E; [|reflexivity].
  rewrite (ltb_asym _ _ E) in E. discriminate.
Qed.

Lemma leb_not_ltb (a b : float) : (b <=? a) = true -> (a <? b) = false.
Proof.
  rewrite leb_spec, ltb_spec. unfold SFleb, SFltb.
  rewrite (SFcompare_swap (Prim2SF b)).
  destruct (SFcompare (Prim2SF b) (Prim2SF a)) as [[]|]; cbn; congruence.
Qed.

Lemma ltb_leb (a b : float) : (a <? b) = true -> (a <=? b) = true.
Proof.
  rewrite leb_spec, ltb_spec. unfold SFleb, SFltb.
  destruct (SFcompare (Prim2SF a) (Prim2SF b)) as [[]|]; congruence.
Qed.

(** A number that is not below [z] and below [M] puts [z] below [M]. *)
Lemma ltb_above (d z M : float) :
  Prim2SF z <> S754_nan ->
  (d <? z) = false -> (d <? M) = true -> (z <? M) = true.
Proof.
  rewrite !ltb_spec. intros Hz Hdz HdM.
  destruct (SFltb_not_nan _ _ HdM) as [Hd HM].
  destruct (SFcompare_defined _ _ Hz Hd) as [x Ex].
  unfold SFltb in *. rewrite (SFcompare_swap (Prim2SF z)) in Hdz.
  rewrite Ex in Hdz. cbn in Hdz.
  destruct (SFcompare (Prim2SF d) (Prim2SF M)) as [[]|] eqn:EdM;
    try discriminate.
  destruct x; cbn in Hdz; try discriminate;
    rewrite (SFcompare_chain _ _ _ _ _ Ex EdM); try discriminate;
    reflexivity.
Qed.

(** With [m] below [s], what does not exceed [m] does not exceed [s]. *)
Lemma ltb_raise (m s s' : float) :
  (m <? s) = true -> (m <? s') = false -> (s <? s') = false.
Proof.
  intros Hms Hms'. destruct (s <? s') eqn:E; [|reflexivity].
  rewrite (ltb_trans _ _ _ Hms E) in Hms'. discriminate.
Qed.

Lemma round_not_negative (m e : Z) (l : location) :
  SFltb (binary_round_aux prec emax false m e l) (S754_zero false) = false.
Proof.
  unfold binary_round_aux.
  destruct (shr_fexp prec emax m e l) as [mrs e'].
  destruct (shr_fexp prec emax _ e' loc_Exact) as [mrs' e''].
  destruct (shr_m mrs'); [reflexivity| |reflexivity].
  destruct (e'' <=? emax - prec)%Z; reflexivity.
Qed.

(** A square root is never below zero. *)
Lemma sqrt_not_negative (x : float) : (PrimFloat.sqrt x <? 0) = false.
Proof.
  rewrite ltb_spec, sqrt_spec.
  change (Prim2SF 0) with (S754_zero false).
  unfold SF64sqrt, SFsqrt.
  destruct (Prim2SF x) as [[]|[]| |[] m e]; try reflexivity.
  destruct (SFsqrt_core_binary prec emax (Zpos m) e) as [[m' e'] l].
  apply round_not_negative.
Qed.

(** The two zeros are the numbers that are neither above nor below 0. *)
Lemma zero_cases (s : float) :
  (0 <=? s) = true -> (0 <? s) = false -> s = 0 \/ s = -0.
Proof.
  rewrite leb_spec, ltb_spec.
  change (Prim2SF 0) with (S754_zero false).
  intros Hle Hlt. rewrite <- (SF2Prim_Prim2SF s).
  destruct (Prim2SF s) as [[]|[]| |[] m e]; try discriminate;
    [right|left]; reflexivity.
Qed.

End DoubleOrder.

(** ** Two decimals *)

Section TwoDecimals.
Local Open Scope float_scope.

(** The integer of [toFixed] is the nearest number of hundredths of the
    absolute value, the larger one of two. *)
Lemma hundredths_nearest (x : float) (q : Q) (n : Z) :
  Double.exact x = Some q -> Double.hundredths x = Some n ->
  (inject_Z n - (1 # 2) <= 100 * Qabs q)%Q /\
  (100 * Qabs q < inject_Z n + (1 # 2))%Q.
Proof.
  unfold Double.exact, Double.hundredths.
  destruct (Prim2SF x) as [s|s| |s m e]; try discriminate.
  - intros [= <-] [= <-]. split; vm_compute; [discriminate|reflexivity].
  - intros [= <-] [= <-].
    set (up := (2 ^ Z.max e 0)%Z). set (den := (2 ^ Z.max (- e) 0)%Z).
    assert (0 < up)%Z as Hup by (apply Z.pow_pos_nonneg; lia).
    assert (0 < den)%Z as Hden by (apply Z.pow_pos_nonneg; lia).
    set (num := (Zpos m * up)%Z).
    assert (0 < num)%Z as Hnum by (unfold num; lia).
    assert (Z.abs ((if s then -1 else 1) * Zpos m * up) = num)%Z as Habs
      by (unfold num; destruct s; lia).
    replace (200 * Zpos m * up)%Z with (200 * num)%Z by (unfold num; ring).
    pose proof (Z.div_mod (200 * num + den) (2 * den)) as Hdiv.
    pose proof (Z.mod_pos_bound (200 * num + den) (2 * den)) as Hmod.
    set (k := ((200 * num + den) / (2 * den))%Z) in *.
    set (r := ((200 * num + den) mod (2 * den))%Z) in *.
    specialize (Hdiv ltac:(lia)). specialize (Hmod ltac:(lia)).
    unfold Qle, Qlt, Qabs, Qmult, Qminus, Qplus, Qopp, inject_Z.
    cbn [Qnum Qden]. rewrite Habs.
    rewrite !Pos2Z.inj_mul, !Z2Pos.id by exact Hden.
    clearbody k r num den. split; nia.
Qed.

End TwoDecimals.

(** ** The active limb and the apex, in double precision *)

Section ActivePart64.
Import Recorder64.
Local Open Scope float_scope.

Lemma extension64_defined (frame : Frame) (id : nat) :
  (33 <= length (pose frame))%nat -> (id < 33)%nat ->
  exists d, extension frame id = Some d /\ (d <? 0) = false.
Proof.
  intros Hlen Hid.
  destruct (lookup_of_length (pose frame) 33 23 Hlen) as [p23 E23]; [lia|].
  destruct (lookup_of_length (pose frame) 33 24 Hlen) as [p24 E24]; [lia|].
  destruct (lookup_of_length (pose frame) 33 id Hlen Hid) as [limb El].
  unfold extension. rewrite E23, E24. cbn [mbind option_bind]. rewrite El.
  eexists. split; [reflexivity|]. apply sqrt_not_negative.
Qed.

Lemma extensions64_defined (history : list Frame) (id : nat) :
  Spec64.validWindow history -> (id < 33)%nat ->
  exists ds, Spec64.extensions history id = Some ds /\
             Forall2 (fun frame d => extension frame id = Some d) history ds /\
             forall d, d ∈ ds -> (d <? 0) = false.
Proof.
  unfold Spec64.validWindow, Spec64.extensions. intros Hvalid Hid.
  induction history as [|frame rest IH].
  - exists []. split; [reflexivity|]. split; [constructor|].
    intros d Hd. inversion Hd.
  - destruct IH as (ds & Eds & Hall & Hpos).
    { intros f Hf. apply Hvalid. right. exact Hf. }
    destruct (extension64_defined frame id) as (d & Ed & Hd); [|exact Hid|].
    { apply Hvalid. left. }
    exists (d :: ds). cbn. rewrite Ed, Eds. cbn.
    split; [reflexivity|]. split; [constructor; assumption|].
    intros d' [->|Hin]%elem_of_cons; auto.
Qed.

(** A scan that meets no distance above the running maximum leaves the
    pair as it is. *)
Lemma scanFrom64_keep (frames : list Frame) (id : nat) (ds : list float) :
  Forall2 (fun frame d => extension frame id = Some d) frames ds ->
  forall i m0 k0,
    (forall d, d ∈ ds -> (m0 <? d) = false) ->
    scanFrom i frames id (m0, k0) = Some (m0, k0).
Proof.
  induction 1 as [|frame d frames ds Hd _ IH]; intros i m0 k0 Hle;
    [reflexivity|].
  cbn [scanFrom]. rewrite Hd. cbn [mbind option_bind fst].
  rewrite (Hle d) by left.
  apply IH. intros d' Hd'. apply Hle. right. exact Hd'.
Qed.

(** A scan whose running maximum is below the maximum [M] of the
    distances ends on [M] and on the first frame that reaches it. *)
Lemma scanFrom64_apex (frames : list Frame) (id : nat) (ds : list float) :
  Forall2 (fun frame d => extension frame id = Some d) frames ds ->
  forall i m0 k0 k M,
    Spec64.apexAt ds k M -> (m0 <? M) = true ->
    scanFrom i frames id (m0, k0) = Some (M, (i + k)%nat).
Proof.
  induction 1 as [|frame d frames ds Hd Hrest IH];
    intros i m0 k0 k M (Hk & Hmax & Hfirst) Hlt.
  - rewrite lookup_nil in Hk. discriminate.
  - cbn [scanFrom]. rewrite Hd. cbn [mbind option_bind fst].
    destruct k as [|k].
    + cbn in Hk. injection Hk as ->. rewrite Hlt.
      rewrite Nat.add_0_r. apply (scanFrom64_keep _ _ _ Hrest).
      intros d' Hd'. apply list_elem_of_lookup in Hd' as [j Hj].
      apply (Hmax (S j)). exact Hj.
    + assert ((d <? M) = true) as HdM
        by (apply (Hfirst 0%nat); [lia|reflexivity]).
      replace (i + S k)%nat with (S i + k)%nat by lia.
      assert (Spec64.apexAt ds k M) as Hapex.
      { split; [exact Hk|]. split.
        - intros j d' Hj. apply (Hmax (S j)). exact Hj.
        - intros j d' Hj Hl. apply (Hfirst (S j)); [lia|exact Hl]. }
      destruct (m0 <? d); apply IH; assumption.
Qed.

(** A scan never fails on defined distances; it ends on a frame of the
    window or on the index it started with, and on one of the distances
    or on the maximum it started with. *)
Lemma scanFrom64_range (frames : list Frame) (id : nat) (ds : list float) :
  Forall2 (fun frame d => extension frame id = Some d) frames ds ->
  forall i m0 k0,
    exists m k,
      scanFrom i frames id (m0, k0) = Some (m, k) /\
      (k = k0 \/ (i <= k < i + length frames)%nat) /\
      (m = m0 \/ m ∈ ds).
Proof.
  induction 1 as [|frame d frames ds Hd Hrest IH]; intros i m0 k0.
  - exists m0, k0. split; [reflexivity|]. split; left; reflexivity.
  - cbn [scanFrom]. rewrite Hd. cbn [mbind option_bind fst].
    destruct (m0 <? d).
    + destruct (IH (S i) d i) as (m & k & E & Hk & Hm).
      exists m, k. split; [exact E|]. split.
      * right. cbn [length]. destruct Hk as [->|Hk]; lia.
      * right. destruct Hm as [->|Hm]; [left|right; exact Hm].
    + destruct (IH (S i) m0 k0) as (m & k & E & Hk & Hm).
      exists m, k. split; [exact E|]. split.
      * destruct Hk as [->|Hk]; [left; reflexivity|right; cbn [length]; lia].
      * destruct Hm as [->|Hm]; [left; reflexivity|right; right; exact Hm].
Qed.

(** The state of the outer loop after its four rounds. *)
Lemma detectActivePart64_rounds (history : list Frame)
    (l1 l2 l3 l4 : float * nat) :
  scanFrom 0 history 19 (0, 0%nat) = Some l1 ->
  scanFrom 0 history 20 (0, 0%nat) = Some l2 ->
  scanFrom 0 history 31 (0, 0%nat) = Some l3 ->
  scanFrom 0 history 32 (0, 0%nat) = Some l4 ->
  detectActivePart history =
    Some (updateActive
            (updateActive
               (updateActive
                  (updateActive (mkActive 0 20 "right_hand" 0)
                     (19%nat, "left_hand"%string) l1)
                  (20%nat, "right_hand"%string) l2)
               (31%nat, "left_foot"%string) l3)
            (32%nat, "right_foot"%string) l4).
Proof.
  intros E1 E2 E3 E4. unfold detectActivePart, Recorder.parts.
  cbn [fold_left considerPart mbind option_bind fst snd].
  rewrite E1. cbn [mbind option_bind]. rewrite E2. cbn [mbind option_bind].
  rewrite E3. cbn [mbind option_bind]. rewrite E4. reflexivity.
Qed.

(** The scan of a candidate over a valid window. *)
Lemma scan64_of_valid_window (history : list Frame) (id : nat) :
  Spec64.validWindow history -> (id < 33)%nat ->
  exists ds m k,
    Spec64.extensions history id = Some ds /\
    scanFrom 0 history id (0, 0%nat) = Some (m, k) /\
    (k = 0%nat \/ (k < length history)%nat) /\
    (m = 0 \/ m ∈ ds).
Proof.
  intros Hvalid Hid.
  destruct (extensions64_defined history id Hvalid Hid)
    as (ds & Eds & Hall & _).
  destruct (scanFrom64_range history id ds Hall 0%nat 0 0%nat)
    as (m & k & E & Hk & Hm).
  exists ds, m, k. split; [exact Eds|]. split; [exact E|].
  split; [|exact Hm].
  destruct Hk as [Hk|Hk]; [left; exact Hk|right; lia].
Qed.

Lemma updateActive64_invariant (n : nat) (st : Active)
    (part : nat * string) (local : float * nat) :
  (activePartId st, activePartName st) ∈ Recorder.parts /\
    (apexFrameIndex st < n)%nat ->
  part ∈ Recorder.parts -> (snd local < n)%nat ->
  (activePartId (updateActive st part local),
   activePartName (updateActive st part local)) ∈ Recorder.parts /\
    (apexFrameIndex (updateActive st part local) < n)%nat.
Proof.
  intros Hst Hpart Hlocal. unfold updateActive.
  destruct (_ <? _); [|exact Hst].
  cbn. destruct part. split; assumption.
Qed.

(** On a valid, non-empty window the detection returns a candidate of
    the table and a frame of the window. *)
Lemma detectActivePart64_defined (history : list Frame) :
  (0 < length history)%nat -> Spec64.validWindow history ->
  exists a,
    detectActivePart history = Some a /\
    (activePartId a, activePartName a) ∈ Recorder.parts /\
    (apexFrameIndex a < length history)%nat.
Proof.
  intros Hlen Hvalid.
  destruct (scan64_of_valid_window history 19 Hvalid)
    as (? & m1 & k1 & _ & E1 & H1 & _); [lia|].
  destruct (scan64_of_valid_window history 20 Hvalid)
    as (? & m2 & k2 & _ & E2 & H2 & _); [lia|].
  destruct (scan64_of_valid_window history 31 Hvalid)
    as (? & m3 & k3 & _ & E3 & H3 & _); [lia|].
  destruct (scan64_of_valid_window history 32 Hvalid)
    as (? & m4 & k4 & _ & E4 & H4 & _); [lia|].
  eexists. split; [apply (detectActivePart64_rounds _ _ _ _ _ E1 E2 E3 E4)|].
  repeat apply updateActive64_invariant;
    try (cbn [snd]; lia);
    try (unfold Recorder.parts; rewrite !elem_of_cons; tauto).
Qed.

(** A round whose maximum is below [M] keeps the state below [M]. *)
Lemma updateActive64_below (M : float) (st : Active) (part : nat * string)
    (local : float * nat) :
  (maxExtension st <? M) = true -> (fst local <? M) = true ->
  (maxExtension (updateActive st part local) <? M) = true.
Proof.
  intros Hst Hlocal. unfold updateActive.
  destruct (_ <? fst local); assumption.
Qed.

(** The round of the candidate that reaches [M] takes the state over. *)
Lemma updateActive64_hit (M : float) (st : Active) (id : nat)
    (name : string) (k : nat) :
  (maxExtension st <? M) = true ->
  updateActive st (id, name) (M, k) = mkActive M id name k.
Proof. intros Hst. unfold updateActive. cbn [fst snd]. rewrite Hst. reflexivity. Qed.

(** A later round whose maximum is below [M] changes nothing. *)
Lemma updateActive64_stay (M : float) (id : nat) (name : string) (k : nat)
    (part : nat * string) (local : float * nat) :
  (fst local <? M) = true ->
  updateActive (mkActive M id name k) part local = mkActive M id name k.
Proof.
  intros Hlocal. unfold updateActive. cbn [maxExtension].
  rewrite (ltb_asym _ _ Hlocal). reflexivity.
Qed.

(** The outcome of the four rounds when one candidate reaches [M] and
    the three others stay below. *)
Lemma updateActive64_rounds (l1 l2 l3 l4 : float * nat)
    (id : nat) (name : string) (k : nat) (M : float) :
  (id, name) ∈ Recorder.parts -> (0 <? M) = true ->
  (if decide (id = 19%nat) then l1 = (M, k) else (fst l1 <? M) = true) ->
  (if decide (id = 20%nat) then l2 = (M, k) else (fst l2 <? M) = true) ->
  (if decide (id = 31%nat) then l3 = (M, k) else (fst l3 <? M) = true) ->
  (if decide (id = 32%nat) then l4 = (M, k) else (fst l4 <? M) = true) ->
  updateActive
    (updateActive
       (updateActive
          (updateActive (mkActive 0 20 "right_hand" 0)
             (19%nat, "left_hand"%string) l1)
          (20%nat, "right_hand"%string) l2)
       (31%nat, "left_foot"%string) l3)
    (32%nat, "right_foot"%string) l4 = mkActive M id name k.
Proof.
  unfold Recorder.parts. rewrite !elem_of_cons, elem_of_nil.
  intros Hin HM H1 H2 H3 H4.
  set (st0 := mkActive 0 20 "right_hand" 0).
  assert ((maxExtension st0 <? M) = true) as H0 by exact HM.
  destruct Hin as [H|[H|[H|[H|[]]]]]; injection H as -> ->;
    repeat case_decide; try lia; subst.
  - rewrite (updateActive64_hit M st0) by exact H0.
    rewrite !updateActive64_stay by assumption. reflexivity.
  - rewrite (updateActive64_hit M (updateActive st0 _ l1))
      by (apply updateActive64_below; assumption).
    rewrite !updateActive64_stay by assumption. reflexivity.
  - rewrite (updateActive64_hit M (updateActive (updateActive st0 _ l1) _ l2))
      by (repeat apply updateActive64_below; assumption).
    rewrite !updateActive64_stay by assumption. reflexivity.
  - rewrite (updateActive64_hit M
               (updateActive (updateActive (updateActive st0 _ l1) _ l2) _ l3))
      by (repeat apply updateActive64_below; assumption).
    reflexivity.
Qed.

(** The maximum is above 0 when another candidate stays below it: the
    distances are square roots. *)
Lemma apex64_distance_positive (history : list Frame) (id : nat) (M : float) :
  (0 < length history)%nat -> Spec64.validWindow history ->
  Spec64.othersBelow history id M -> (0 <? M) = true.
Proof.
  intros Hlen Hvalid Hothers.
  set (id' := if decide (id = 19%nat) then 20%nat else 19%nat).
  assert (id' <> id /\ exists name', (id', name') ∈ Recorder.parts)
    as [Hne [name' Hin]].
  { unfold id', Recorder.parts. case_decide; (split; [lia|]); eexists;
      rewrite !elem_of_cons; eauto. }
  destruct (extensions64_defined history id' Hvalid (parts_ids _ _ Hin))
    as (ds' & Eds & Hall & Hpos).
  destruct ds' as [|d ds'].
  { apply Forall2_length in Hall. cbn in Hall. lia. }
  assert (d ∈ d :: ds') as Hd by left.
  apply (ltb_above d).
  - change (Prim2SF 0) with (S754_zero false). discriminate.
  - apply Hpos. exact Hd.
  - apply (Hothers id' name' _ Hin Hne Eds d Hd).
Qed.

(** The round of candidate [j] when candidate [id] reaches the maximum
    [M] first at frame [k] and the others stay below [M]. *)
Lemma scan64_round (history : list Frame) (id : nat) (ds : list float)
    (k : nat) (M : float) (j : nat) (namej : string) :
  (0 < length history)%nat -> Spec64.validWindow history ->
  Spec64.extensions history id = Some ds -> Spec64.apexAt ds k M ->
  Spec64.othersBelow history id M ->
  (j, namej) ∈ Recorder.parts ->
  exists l,
    scanFrom 0 history j (0, 0%nat) = Some l /\
    if decide (id = j) then l = (M, k) else (fst l <? M) = true.
Proof.
  intros Hlen Hvalid Eds Hapex Hothers Hj.
  pose proof (apex64_distance_positive history id M Hlen Hvalid Hothers) as HM.
  case_decide as Hid.
  - subst j. exists (M, k). split; [|reflexivity].
    apply (scanFrom64_apex history id ds (mapM_Some_1 _ _ _ Eds)
             0%nat 0 0%nat k M Hapex HM).
  - destruct (scan64_of_valid_window history j Hvalid (parts_ids _ _ Hj))
      as (ds' & m & k' & Eds' & E & _ & Hm).
    exists (m, k'). split; [exact E|]. cbn [fst].
    destruct Hm as [->|Hm]; [exact HM|].
    apply (Hothers j namej ds'); [exact Hj|congruence|exact Eds'|exact Hm].
Qed.

(** The detection returns the candidate that reaches the largest
    distance, and the first frame at which it does. *)
Lemma detectActivePart64_apex (history : list Frame) (id : nat)
    (name : string) (ds : list float) (k : nat) (M : float) :
  (0 < length history)%nat -> Spec64.validWindow history ->
  (id, name) ∈ Recorder.parts ->
  Spec64.extensions history id = Some ds -> Spec64.apexAt ds k M ->
  Spec64.othersBelow history id M ->
  detectActivePart history = Some (mkActive M id name k).
Proof.
  intros Hlen Hvalid Hin Eds Hapex Hothers.
  assert (forall j namej, (j, namej) ∈ Recorder.parts ->
            exists l, scanFrom 0 history j (0, 0%nat) = Some l /\
              if decide (id = j) then l = (M, k) else (fst l <? M) = true)
    as Hround
    by (intros j namej; apply (scan64_round history id ds); assumption).
  destruct (Hround 19%nat "left_hand"%string) as (l1 & E1 & H1);
    [unfold Recorder.parts; rewrite !elem_of_cons; tauto|].
  destruct (Hround 20%nat "right_hand"%string) as (l2 & E2 & H2);
    [unfold Recorder.parts; rewrite !elem_of_cons; tauto|].
  destruct (Hround 31%nat "left_foot"%string) as (l3 & E3 & H3);
    [unfold Recorder.parts; rewrite !elem_of_cons; tauto|].
  destruct (Hround 32%nat "right_foot"%string) as (l4 & E4 & H4);
    [unfold Recorder.parts; rewrite !elem_of_cons; tauto|].
  rewrite (detectActivePart64_rounds _ _ _ _ _ E1 E2 E3 E4). f_equal.
  apply updateActive64_rounds; try assumption.
  apply (apex64_distance_positive history id M); assumption.
Qed.

(** A limb whose distances grow up to frame [k] and do not grow from
    there on is farthest at frame [k], and at no earlier frame. *)
Lemma outAndBack64_apexAt (ds : list float) (k : nat) (M : float) :
  Spec64.outAndBack ds k -> ds !! k = Some M -> Spec64.apexAt ds k M.
Proof.
  intros [Hrise Hfall] Hk.
  assert (forall n j d, (j + S n = k)%nat -> ds !! j = Some d ->
            (d <? M) = true) as Hbefore.
  { induction n as [|n IH]; intros j d Hj Ed.
    - apply (Hrise j d M); [lia|exact Ed|].
      replace (S j) with k by lia. exact Hk.
    - destruct (lookup_lt_is_Some_2 ds (S j)) as [b Eb].
      { apply lookup_lt_Some in Hk. lia. }
      apply ltb_trans with b.
      + apply (Hrise j d b); [lia|exact Ed|exact Eb].
      + apply (IH (S j)); [lia|exact Eb]. }
  assert (forall n d, ds !! (k + n)%nat = Some d -> (M <? d) = false)
    as Hafter.
  { induction n as [|n IH]; intros d Ed.
    - rewrite Nat.add_0_r, Hk in Ed. injection Ed as ->. apply ltb_irrefl.
    - destruct (lookup_lt_is_Some_2 ds (k + n)) as [a Ea].
      { apply lookup_lt_Some in Ed. lia. }
      destruct (M <? d) eqn:EMd; [|reflexivity].
      rewrite <- (IH a Ea). symmetry.
      apply (ltb_leb_trans M d a EMd).
      apply (Hfall (k + n)%nat a d); [lia|exact Ea|].
      rewrite <- Nat.add_succ_r. exact Ed. }
  split; [exact Hk|]. split.
  - intros j d Ed. destruct (Nat.lt_ge_cases j k) as [Hlt|Hge].
    + apply ltb_asym. apply (Hbefore (k - j - 1)%nat j); [lia|exact Ed].
    + apply (Hafter (j - k)%nat). replace (k + (j - k))%nat with j by lia.
      exact Ed.
  - intros j d Hlt Ed. apply (Hbefore (k - j - 1)%nat j); [lia|exact Ed].
Qed.

End ActivePart64.

(** ** The phase speeds, in double precision *)

Section PhaseSpeeds64.
Import Recorder64.
Local Open Scope float_scope.

(** One round of the loop takes the sample of the pair, when there is
    one and it is above the running maximum. *)
Lemma speedStep64_counted (history : list Frame) (partId : nat)
    (heightCm m : float) (i : nat) :
  Spec64.validWindow history -> (partId < 33)%nat ->
  (1 <= i < length history)%nat ->
  speedStep history partId (heightCm / 175) (Some m) i =
    Some (match Spec64.countedSample history partId heightCm i with
          | Some s => if m <? s then s else m
          | None => m
          end).
Proof.
  intros Hvalid Hid Hi.
  destruct (lookup_lt_is_Some_2 history i) as [cur Ecur]; [lia|].
  destruct (lookup_lt_is_Some_2 history (i - 1)) as [prev Eprev]; [lia|].
  assert (33 <= length (pose cur))%nat as Hc
    by (apply Hvalid, list_elem_of_lookup; eauto).
  assert (33 <= length (pose prev))%nat as Hp
    by (apply Hvalid, list_elem_of_lookup; eauto).
  destruct (lookup_of_length (pose cur) 33 partId Hc Hid) as [p2 E2].
  destruct (lookup_of_length (pose prev) 33 partId Hp Hid) as [p1 E1].
  unfold speedStep, Spec64.countedSample.
  cbn [mbind option_bind]. rewrite Ecur, Eprev. cbn [mbind option_bind].
  rewrite E1, E2. cbn [mbind option_bind].
  destruct (_ <=? 0); [reflexivity|].
  destruct (_ <? 25); reflexivity.
Qed.

(** The maximum of the samples seen so far, after one more sample. *)
Lemma greatest_snoc (samples : list float) (m s : float) :
  Spec64.greatest samples m ->
  Spec64.greatest (samples ++ [s]) (if m <? s then s else m).
Proof.
  intros [Hmax Hm]. destruct (m <? s) eqn:Hms.
  - split.
    + intros s' [Hs'| ->%list_elem_of_singleton]%elem_of_app.
      * apply (ltb_raise m); [exact Hms|apply Hmax; exact Hs'].
      * apply ltb_irrefl.
    + right. split; [apply elem_of_app; right; left|].
      destruct Hm as [->|[_ Hpos]]; [exact Hms|].
      apply ltb_trans with m; assumption.
  - split.
    + intros s' [Hs'| ->%list_elem_of_singleton]%elem_of_app;
        [apply Hmax; exact Hs'|exact Hms].
    + destruct Hm as [->|[Hin Hpos]]; [left; reflexivity|right].
      split; [apply elem_of_app; left; exact Hin|exact Hpos].
Qed.

Lemma speed64_loop (history : list Frame) (partId : nat)
    (heightCm : float) :
  Spec64.validWindow history -> (partId < 33)%nat ->
  forall idxs seen m0,
    Spec64.greatest seen m0 ->
    (forall i, i ∈ idxs -> (1 <= i < length history)%nat) ->
    exists m,
      fold_left (speedStep history partId (heightCm / 175)) idxs (Some m0)
        = Some m /\
      Spec64.greatest
        (seen ++ omap (Spec64.countedSample history partId heightCm) idxs) m.
Proof.
  intros Hvalid Hid. induction idxs as [|i idxs IH]; intros seen m0 Hm0 Hidx.
  - exists m0. split; [reflexivity|]. cbn. rewrite app_nil_r. exact Hm0.
  - cbn [fold_left].
    rewrite speedStep64_counted; [|assumption..|apply Hidx; left].
    assert (forall j, j ∈ idxs -> (1 <= j < length history)%nat) as Hidx'
      by (intros j Hj; apply Hidx; right; exact Hj).
    cbn [omap list_omap].
    destruct (Spec64.countedSample history partId heightCm i) as [s|].
    + destruct (IH (seen ++ [s]) (if m0 <? s then s else m0))
        as (m & E & Hm); [apply greatest_snoc; exact Hm0|exact Hidx'|].
      exists m. split; [exact E|]. rewrite <- app_assoc in Hm. exact Hm.
    + apply IH; assumption.
Qed.

(** [calculateMaxSpeedInRange] returns the maximum of the samples of
    the phase, to two decimals. *)
Lemma calculateMaxSpeedInRange64_spec (history : list Frame)
    (startIndex endIndex partId : nat) (heightCm : float) :
  Spec64.validWindow history -> (partId < 33)%nat ->
  (endIndex < length history)%nat ->
  exists m,
    Spec64.greatest
      (Spec64.phaseSamples history partId heightCm startIndex endIndex) m /\
    calculateMaxSpeedInRange history startIndex endIndex partId
      (heightCm / 175) = Some (Double.toFixed2 m).
Proof.
  intros Hvalid Hid Hend. unfold calculateMaxSpeedInRange, Spec64.phaseSamples.
  destruct (endIndex <=? startIndex)%nat eqn:Hle.
  - apply Nat.leb_le in Hle.
    replace (endIndex - startIndex)%nat with 0%nat by lia.
    exists 0. split; [|reflexivity].
    split; [intros s Hs; inversion Hs|left; reflexivity].
  - apply Nat.leb_gt in Hle.
    destruct (speed64_loop history partId heightCm Hvalid Hid
                (seq (S startIndex) (endIndex - startIndex)) [] 0)
      as (m & E & Hm).
    + split; [intros s Hs; inversion Hs|left; reflexivity].
    + intros i Hi. apply elem_of_seq in Hi. lia.
    + exists m. split; [exact Hm|]. rewrite E. reflexivity.
Qed.

(** The sample of a pair that covers [d] in [dt] seconds. *)
Lemma countedSample64_constantStep (history : list Frame) (partId : nat)
    (heightCm : float) (i : nat) (d dt : float) :
  Spec64.constantStep history partId i d dt ->
  (dt <=? 0) = false -> (d * (heightCm / 175) / dt <? 25) = true ->
  Spec64.countedSample history partId heightCm i
    = Some (d * (heightCm / 175) / dt).
Proof.
  intros (prev & cur & p1 & p2 & Eprev & Ecur & E1 & E2 & Hd & Hdt) Hpos Hlt.
  unfold Spec64.countedSample.
  rewrite Eprev, Ecur. cbn [mbind option_bind].
  rewrite E1, E2. cbn [mbind option_bind]. rewrite Hd, Hdt, Hpos, Hlt.
  reflexivity.
Qed.

(** The maximum of samples that are all the speed [s]. *)
Lemma greatest_constant (samples : list float) (s m : float) :
  samples <> [] -> (forall s', s' ∈ samples -> s' = s) ->
  (0 <=? s) = true -> Spec64.greatest samples m ->
  Double.toFixed2 m = Double.toFixed2 s.
Proof.
  intros Hne Hall Hs [Hmax [->|[Hin _]]].
  - destruct samples as [|s' rest]; [congruence|].
    assert (s' = s) as -> by (apply Hall; left).
    destruct (zero_cases s Hs) as [->| ->]; [apply Hmax; left| |];
      reflexivity.
  - rewrite (Hall m Hin). reflexivity.
Qed.

End PhaseSpeeds64.

(** ** The metrics of a window, in double precision *)

Section Metrics64.
Import Recorder64.
Local Open Scope float_scope.

(** [calculateMetrics] on a valid window of five frames or more, given
    the outcome of the detection. *)
Lemma calculateMetrics64_runs (history : list Frame) (heightCm : float)
    (a : Active) :
  (5 <= length history)%nat -> Spec64.validWindow history ->
  detectActivePart history = Some a ->
  (activePartId a, activePartName a) ∈ Recorder.parts ->
  (apexFrameIndex a < length history)%nat ->
  exists first last out ret,
    history !! 0%nat = Some first /\
    history !! (length history - 1)%nat = Some last /\
    Spec64.greatest
      (Spec64.phaseSamples history (activePartId a) heightCm
         0 (apexFrameIndex a)) out /\
    Spec64.greatest
      (Spec64.phaseSamples history (activePartId a) heightCm
         (apexFrameIndex a) (length history - 1)) ret /\
    calculateMetrics history heightCm =
      Some (MetricsObject
              (mkMetrics
                 (Double.toFixed2 ((time last - time first) / 1000))
                 (activePartName a)
                 (Double.toFixed2 out) (Double.toFixed2 ret)
                 (apexFrameIndex a))).
Proof.
  intros Hlen Hvalid Ha Hpart Hapex.
  apply parts_ids in Hpart.
  destruct (lookup_lt_is_Some_2 history 0) as [first E0]; [lia|].
  destruct (lookup_lt_is_Some_2 history (length history - 1)) as [last El];
    [lia|].
  destruct (calculateMaxSpeedInRange64_spec history 0 (apexFrameIndex a)
              (activePartId a) heightCm Hvalid Hpart Hapex)
    as (out & Hout & Eout).
  destruct (calculateMaxSpeedInRange64_spec history (apexFrameIndex a)
              (length history - 1) (activePartId a) heightCm Hvalid Hpart)
    as (ret & Hret & Eret); [lia|].
  exists first, last, out, ret.
  split; [exact E0|]. split; [exact El|].
  split; [exact Hout|]. split; [exact Hret|].
  unfold calculateMetrics.
  destruct (length history <? 5)%nat eqn:Hlt;
    [apply Nat.ltb_lt in Hlt; lia|].
  rewrite Ha. cbn [mbind option_bind]. rewrite Eout, Eret.
  cbn [mbind option_bind]. rewrite E0, El. reflexivity.
Qed.

(** *** The sample windows *)

Lemma handAt64_length (hand : Pt64.t) : length (Samples64.handAt hand) = 33%nat.
Proof. reflexivity. Qed.

Lemma jab64_valid : Spec64.validWindow Samples64.jab.
Proof.
  intros frame Hin. unfold Samples64.jab in Hin.
  rewrite !elem_of_cons, elem_of_nil in Hin.
  destruct Hin as [->|[->|[->|[->|[->|[]]]]]];
    cbn [pose]; rewrite handAt64_length; lia.
Qed.

Lemma jab64_outAndBack : Spec64.outAndBack [0; 0.25; 0.5; 0.25; 0] 2.
Proof.
  split; intros j a b Hj Ha Hb;
    do 5 (destruct j as [|j];
          [cbn in Ha, Hb; try lia; try discriminate;
           injection Ha as <-; injection Hb as <-; reflexivity|]);
    cbn in Ha; discriminate.
Qed.

Lemma jab64_othersBelow : Spec64.othersBelow Samples64.jab 20 0.5.
Proof.
  intros id' name' ds' Hin Hne Eds d Hd.
  unfold Recorder.parts in Hin. rewrite !elem_of_cons, elem_of_nil in Hin.
  destruct Hin as [H|[H|[H|[H|[]]]]]; injection H as -> _;
    try congruence;
    vm_compute in Eds; injection Eds as <-;
    rewrite !elem_of_cons, elem_of_nil in Hd;
    destruct Hd as [->|[->|[->|[->|[->|[]]]]]]; reflexivity.
Qed.

Lemma jab64_constantStep (i : nat) :
  (1 <= i <= 2)%nat ->
  Spec64.constantStep Samples64.jab 20 i 0.25 (100 / 1000).
Proof.
  intros Hi. assert (i = 1%nat \/ i = 2%nat) as [-> | ->] by lia;
    do 4 eexists; repeat (split; [reflexivity|]); reflexivity.
Qed.

End Metrics64.

(** ** What a window reports *)

Section ReportedMetrics.
Import Recorder64.
Local Open Scope float_scope.

(** C3: on a valid window of five frames or more [calculateMetrics]
    returns metrics; when one candidate reaches a distance from the hip
    midpoint, as the program computes it in double precision, that is
    above every computed distance of the three others, [active_part] is
    that candidate and [apex_frame] is the first frame of the window at
    which it is that far; in particular, when the computed distance of
    the candidate grows up to frame [k] and does not grow from frame [k]
    on, [apex_frame] is [k]. *)
Theorem calculateMetrics_active_part (history : list Frame)
    (heightCm : float) :
  (5 <= length history)%nat -> Spec64.validWindow history ->
  exists m,
    calculateMetrics history heightCm = Some (MetricsObject m) /\
    (forall id name ds k M,
       (id, name) ∈ Recorder.parts ->
       Spec64.extensions history id = Some ds ->
       Spec64.apexAt ds k M ->
       Spec64.othersBelow history id M ->
       active_part m = name /\ apex_frame m = k) /\
    (forall id name ds k M,
       (id, name) ∈ Recorder.parts ->
       Spec64.extensions history id = Some ds ->
       Spec64.outAndBack ds k -> ds !! k = Some M ->
       Spec64.othersBelow history id M ->
       active_part m = name /\ apex_frame m = k).
Proof.
  intros Hlen Hvalid.
  destruct (detectActivePart64_defined history) as (a & Ea & Hpart & Hapex);
    [lia|exact Hvalid|].
  destruct (calculateMetrics64_runs history heightCm a Hlen Hvalid Ea Hpart
              Hapex) as (first & last & out & ret & _ & _ & _ & _ & Em).
  eexists. split; [exact Em|].
  assert (forall id name ds k M,
            (id, name) ∈ Recorder.parts ->
            Spec64.extensions history id = Some ds ->
            Spec64.apexAt ds k M -> Spec64.othersBelow history id M ->
            activePartName a = name /\ apexFrameIndex a = k) as Hgeneral.
  { intros id name ds k M Hin Eds Hk Hothers.
    rewrite (detectActivePart64_apex history id name ds k M) in Ea;
      try assumption; [|lia].
    injection Ea as <-. split; reflexivity. }
  split; [exact Hgeneral|].
  intros id name ds k M Hin Eds Hmove Hk Hothers.
  apply (Hgeneral id name ds k M); try assumption.
  apply outAndBack64_apexAt; assumption.
Qed.

(** The jab sample: the right hand is the active part, frame 2 the
    apex. *)
Lemma calculateMetrics_active_part_witness :
  exists m,
    calculateMetrics Samples64.jab 175 = Some (MetricsObject m) /\
    active_part m = "right_hand"%string /\ apex_frame m = 2%nat.
Proof.
  destruct (calculateMetrics_active_part Samples64.jab 175)
    as (m & Em & _ & Hmove).
  - cbn. lia.
  - exact jab64_valid.
  - exists m. split; [exact Em|].
    apply (Hmove 20%nat "right_hand"%string [0; 0.25; 0.5; 0.25; 0]
                 2%nat 0.5).
    + unfold Recorder.parts. rewrite !elem_of_cons. tauto.
    + vm_compute. reflexivity.
    + exact jab64_outAndBack.
    + reflexivity.
    + exact jab64_othersBelow.
Defined.

(** The window [creep]: in exact arithmetic the right hand is farther
    from the hip midpoint at every frame up to frame 2 (the squares of
    its distances are 1/4, 1 and 1 + 2^-60) and closer again afterwards,
    and the other candidates stay at the hip midpoint; the program
    computes the distance 1 at frames 1 and 2 and reports frame 1. *)
Lemma calculateMetrics_creep_apex_before_farthest :
  exists q0 q1 q2 q3 q4 m,
    mapM (fun frame => Spec64.exactSquare frame 20) Samples64.creep
      = Some [q0; q1; q2; q3; q4] /\
    (q0 < q1)%Q /\ (q1 < q2)%Q /\ (q3 < q2)%Q /\ (q4 < q3)%Q /\
    (forall id, id ∈ [19; 31; 32]%nat ->
       exists zeros,
         mapM (fun frame => Spec64.exactSquare frame id) Samples64.creep
           = Some zeros /\
         Forall (fun q => q == 0)%Q zeros) /\
    Spec64.extensions Samples64.creep 20 = Some [0.5; 1; 1; 0.5; 0] /\
    calculateMetrics Samples64.creep 175 = Some (MetricsObject m) /\
    active_part m = "right_hand"%string /\ apex_frame m = 1%nat.
Proof.
  do 6 eexists.
  split; [vm_compute; reflexivity|].
  split; [vm_compute; reflexivity|].
  split; [vm_compute; reflexivity|].
  split; [vm_compute; reflexivity|].
  split; [vm_compute; reflexivity|].
  split.
  { intros id Hid. rewrite !elem_of_cons, elem_of_nil in Hid.
    destruct Hid as [->|[->|[->|[]]]]; eexists;
      (split; [vm_compute; reflexivity|]);
      repeat constructor. }
  split; [vm_compute; reflexivity|].
  split; [vm_compute; reflexivity|].
  split; reflexivity.
Qed.

(** C4: on a valid window of five frames or more, [max_speed_outbound]
    and [max_speed_return] are the maxima, to two decimals, of the speed
    samples of the active limb over the frame pairs from frame 0 to the
    apex and from the apex to the last frame, each sample the double the
    program computes as [distance * (heightCm / 175) / dt]; a pair with
    [dt <= 0] and a sample that is not below 25 m/s do not count.  In
    particular, when every pair of the outbound phase covers the
    computed distance [d] in [dt] seconds, [max_speed_outbound] is the
    double [d * (heightCm / 175) / dt] to two decimals, provided that
    double is not negative and below 25. *)
Theorem calculateMetrics_phase_speeds (history : list Frame)
    (heightCm : float) :
  (5 <= length history)%nat -> Spec64.validWindow history ->
  exists a m out ret,
    detectActivePart history = Some a /\
    calculateMetrics history heightCm = Some (MetricsObject m) /\
    apex_frame m = apexFrameIndex a /\
    Spec64.greatest
      (Spec64.phaseSamples history (activePartId a) heightCm
         0 (apex_frame m)) out /\
    max_speed_outbound m = Double.toFixed2 out /\
    Spec64.greatest
      (Spec64.phaseSamples history (activePartId a) heightCm
         (apex_frame m) (length history - 1)) ret /\
    max_speed_return m = Double.toFixed2 ret /\
    (forall d dt,
       (0 < apex_frame m)%nat -> (dt <=? 0) = false ->
       (0 <=? d * (heightCm / 175) / dt) = true ->
       (d * (heightCm / 175) / dt <? 25) = true ->
       (forall i, (1 <= i <= apex_frame m)%nat ->
          Spec64.constantStep history (activePartId a) i d dt) ->
       max_speed_outbound m = Double.toFixed2 (d * (heightCm / 175) / dt)).
Proof.
  intros Hlen Hvalid.
  destruct (detectActivePart64_defined history) as (a & Ea & Hpart & Hapex);
    [lia|exact Hvalid|].
  destruct (calculateMetrics64_runs history heightCm a Hlen Hvalid Ea Hpart
              Hapex) as (first & last & out & ret & _ & _ & Hout & Hret & Em).
  exists a. eexists. exists out, ret. split; [exact Ea|]. split; [exact Em|].
  cbn [apex_frame max_speed_outbound max_speed_return].
  split; [reflexivity|]. split; [exact Hout|]. split; [reflexivity|].
  split; [exact Hret|]. split; [reflexivity|].
  intros d dt Hk Hdt Hpos Hlt Hstep.
  apply (greatest_constant
           (Spec64.phaseSamples history (activePartId a) heightCm
              0 (apexFrameIndex a))); [| |exact Hpos|exact Hout].
  - unfold Spec64.phaseSamples. rewrite Nat.sub_0_r.
    destruct (apexFrameIndex a) as [|n]; [lia|].
    cbn [seq omap list_omap].
    rewrite (countedSample64_constantStep _ _ _ 1 d dt);
      [discriminate|apply Hstep; lia|exact Hdt|exact Hlt].
  - intros s' Hs'. unfold Spec64.phaseSamples in Hs'.
    apply list_elem_of_omap in Hs' as (i & Hi & Es').
    apply elem_of_seq in Hi.
    rewrite (countedSample64_constantStep _ _ _ i d dt) in Es';
      [congruence|apply Hstep; lia|exact Hdt|exact Hlt].
Qed.

(** The jab sample at the reference height of 175 cm: 0.25 m per 0.1 s
    on the way out, 2.5 m/s. *)
Lemma calculateMetrics_phase_speeds_witness :
  exists m,
    calculateMetrics Samples64.jab 175 = Some (MetricsObject m) /\
    max_speed_outbound m = 2.5.
Proof.
  destruct (calculateMetrics_phase_speeds Samples64.jab 175)
    as (a & m & out & ret & Ea & Em & Hk & _ & _ & _ & _ & Hconst).
  - cbn. lia.
  - exact jab64_valid.
  - vm_compute in Ea. injection Ea as <-. cbn [apexFrameIndex] in Hk.
    exists m. split; [exact Em|].
    rewrite (Hconst 0.25 (100 / 1000)).
    + reflexivity.
    + rewrite Hk. lia.
    + reflexivity.
    + reflexivity.
    + reflexivity.
    + intros i Hi. rewrite Hk in Hi. cbn [activePartId].
      apply jab64_constantStep. exact Hi.
Defined.

(** The window [reach] at 155 cm: every pair of the outbound phase
    covers 0.875 in one second.  [0.875 / 1 * 155 / 175] is 0.775, which
    is 0.78 to two decimals, in exact arithmetic and in doubles; the
    program computes [0.875 * (155 / 175) / 1], a double below 0.775,
    and reports 0.77. *)
Lemma calculateMetrics_reach_speed_below_rounded_value :
  exists m,
    calculateMetrics Samples64.reach 155 = Some (MetricsObject m) /\
    active_part m = "right_hand"%string /\ apex_frame m = 4%nat /\
    (forall i, (1 <= i <= 4)%nat ->
       Spec64.constantStep Samples64.reach 20 i 0.875 1) /\
    (Spec64.round2 ((7 # 8) / 1 * 155 / 175) == 78 # 100)%Q /\
    Double.toFixed2 (0.875 / 1 * 155 / 175) = 78 / 100 /\
    max_speed_outbound m = 77 / 100 /\
    (77 / 100 <? 78 / 100) = true.
Proof.
  eexists. split; [vm_compute; reflexivity|].
  split; [reflexivity|]. split; [reflexivity|]. split.
  { intros i Hi.
    assert (i = 1 \/ i = 2 \/ i = 3 \/ i = 4)%nat
      as [->|[->|[->| ->]]] by lia;
      do 4 eexists; repeat (split; [reflexivity|]);
      split; vm_compute; reflexivity. }
  split; [vm_compute; reflexivity|].
  split; [vm_compute; reflexivity|].
  split; vm_compute; reflexivity.
Qed.

End ReportedMetrics.
